(** * FLARM / GPS NMEA sentence generation and the TCP fan-out registry

    A shallow embedding of [gen_flarm.go]: the traffic classification and
    PFLAA/PFLAU encoding ([makeFlarmPFLAAString], [sendNetFLARM]), the
    GPS sentences ([makeGPRMCString], [makeGPGGAString]) and the event loop
    of the TCP registry ([handleMessages]).

    Conventions.
    - Go strings are byte strings: [string] of the standard library.
    - Go's fixed-width integers are [Z] values kept in their range.
    - [float32] and [float64] are [spec_float] values computed with the
      IEEE-754 operations of [SpecFloat] at (24,128) and (53,1024), every
      operation rounded on its own to nearest-even.
    - [log.Printf] diagnostics guarded by [globalSettings.DEBUG] write to the
      process log only and are left out. *)

From Stdlib Require Import ZArith NArith String Ascii List Bool Lia.
From Stdlib Require Import SpecFloat.
From stdpp Require Import strings gmap.

Local Open Scope Z_scope.

(** ** Floating point *)

Module Float.

Section Format.
Variables prec emax : Z.

Definition of_Z (n : Z) : spec_float := binary_normalize prec emax n 0 false.

(** A decimal constant of the source, [num/den], rounded once. *)
Definition const (num den : Z) : spec_float :=
  SFdiv prec emax (of_Z num) (of_Z den).

(** Conversion from another binary format (exact when widening). *)
Definition convert (x : spec_float) : spec_float :=
  match x with
  | S754_finite s m e => binary_round prec emax s m e
  | _ => x
  end.

Definition add := SFadd prec emax.
Definition sub := SFsub prec emax.
Definition mul := SFmul prec emax.
Definition div := SFdiv prec emax.

(** [math.Floor] *)
Definition floor (x : spec_float) : spec_float :=
  match x with
  | S754_finite s m e =>
      if 0 <=? e then x
      else
        let q := Z.pos m / 2 ^ (- e) in
        let exact := Z.pos m mod 2 ^ (- e) =? 0 in
        if s then
          binary_normalize prec emax (- (if exact then q else q + 1)) 0 true
        else binary_normalize prec emax q 0 false
  | _ => x
  end.
End Format.

Definition lt (x y : spec_float) : bool := SFltb x y.
Definition gt (x y : spec_float) : bool := SFltb y x.
Definition neg (x : spec_float) : spec_float := SFopp x.

(** The integer part of a finite number (fraction discarded). *)
Definition trunc (x : spec_float) : option Z :=
  match x with
  | S754_zero _ => Some 0
  | S754_finite s m e =>
      let a := if 0 <=? e then Z.pos m * 2 ^ e else Z.pos m / 2 ^ (- e) in
      Some (if s then - a else a)
  | _ => None
  end.

Definition sign (x : spec_float) : bool :=
  match x with
  | S754_zero s | S754_infinity s | S754_finite s _ _ => s
  | S754_nan => false
  end.

End Float.

Definition float32 := spec_float.
Definition float64 := spec_float.

Module F32.
Definition of_Z := Float.of_Z 24 128.
Definition const := Float.const 24 128.
Definition sub := Float.sub 24 128.
Definition mul := Float.mul 24 128.
Definition div := Float.div 24 128.
End F32.

Module F64.
Definition of_Z := Float.of_Z 53 1024.
Definition of_f32 : float32 -> float64 := Float.convert 53 1024.
Definition sub := Float.sub 53 1024.
Definition add := Float.add 53 1024.
Definition mul := Float.mul 53 1024.
Definition div := Float.div 53 1024.
Definition floor := Float.floor 53 1024.
End F64.

(** ** Integer conversions *)

Definition wrap_int16 (z : Z) : Z := (z + 32768) mod 65536 - 32768.
Definition in_int16 (z : Z) : bool := (-32768 <=? z) && (z <=? 32767).
Definition in_int32 (z : Z) : bool := (-2147483648 <=? z) && (z <=? 2147483647).

Section Conversion.
(** [int16(f)] for a float [f].  Go discards the fraction and leaves the
    result implementation-dependent when the integer part does not fit.  The
    gc compiler converts to a 32-bit integer and keeps the low 16 bits, so
    an integer part within the int32 range wraps modulo 2^16; beyond it (and
    for NaN and infinities) the result differs between processors and is
    the parameter [cvt_indefinite]. *)
Variable cvt_indefinite : spec_float -> Z.

Definition int16_of_float (f : spec_float) : Z :=
  match Float.trunc f with
  | Some z => if in_int32 z then wrap_int16 z else wrap_int16 (cvt_indefinite f)
  | None => wrap_int16 (cvt_indefinite f)
  end.
End Conversion.

(** ** Formatting ([fmt.Sprintf] verbs used by the source) *)

(** Digits 0-9 and A-F (the source only uses the upper-case verb). *)
Definition digit_char (d : N) : ascii :=
  if (d <? 10)%N then ascii_of_N (48 + d) else ascii_of_N (55 + d).

Fixpoint digits_go (fuel : nat) (base n : N) (acc : string) : string :=
  match fuel with
  | O => acc
  | S fuel' =>
      let acc' := String (digit_char (n mod base)) acc in
      if (n / base =? 0)%N then acc' else digits_go fuel' base (n / base) acc'
  end.

Definition digits (base n : N) : string :=
  digits_go (S (N.size_nat n)) base n "".

(** Reading digits back: the number a digit string denotes. *)
Definition digit_value (c : ascii) : N :=
  if (N_of_ascii c <? 58)%N then (N_of_ascii c - 48)%N else (N_of_ascii c - 55)%N.

Fixpoint value_of (base : N) (s : string) (acc : N) : N :=
  match s with
  | EmptyString => acc
  | String c s' => value_of base s' (acc * base + digit_value c)%N
  end.

Fixpoint repeat_char (c : ascii) (n : nat) : string :=
  match n with
  | O => ""
  | S n' => String c (repeat_char c n')
  end.

Definition pad_left (c : ascii) (wid : nat) (s : string) : string :=
  repeat_char c (wid - String.length s)%nat +:+ s.

(** [%d] *)
Definition fmt_d (z : Z) : string :=
  if z <? 0 then "-" +:+ digits 10 (Z.to_N (- z)) else digits 10 (Z.to_N z).

(** [strconv.Itoa] *)
Definition Itoa (z : Z) : string := fmt_d z.

(** [%0Wd] *)
Definition fmt_0d (wid : nat) (z : Z) : string :=
  if z <? 0 then "-" +:+ pad_left "0"%char (wid - 1)%nat (digits 10 (Z.to_N (- z)))
  else pad_left "0"%char wid (digits 10 (Z.to_N z)).

(** [%X] on an unsigned value *)
Definition fmt_X (z : Z) : string := digits 16 (Z.to_N z).

(** [%02X] on an unsigned value *)
Definition fmt_02X (z : Z) : string := pad_left "0"%char 2 (digits 16 (Z.to_N z)).

(** The digits of [%.Pf]: the exact value rounded to [p] decimals, ties to
    even, without sign. *)
Definition round_half_even (num den : Z) : Z :=
  let q := num / den in
  let r := num mod den in
  match 2 * r ?= den with
  | Lt => q
  | Gt => q + 1
  | Eq => if Z.even q then q else q + 1
  end.

Definition fixed_digits (p : nat) (x : spec_float) : string :=
  let scaled :=
    match x with
    | S754_finite _ m e =>
        if 0 <=? e then Z.pos m * 10 ^ Z.of_nat p * 2 ^ e
        else round_half_even (Z.pos m * 10 ^ Z.of_nat p) (2 ^ (- e))
    | _ => 0
    end in
  let ip := digits 10 (Z.to_N (scaled / 10 ^ Z.of_nat p)) in
  match p with
  | O => ip
  | _ => ip +:+ "." +:+ pad_left "0"%char p (digits 10 (Z.to_N (scaled mod 10 ^ Z.of_nat p)))
  end.

(** [%W.Pf] (no flag) and [%0W.Pf] ([zero]): infinities and NaN are padded
    with spaces, a sign is written before the zero padding. *)
Definition fmt_f (zero : bool) (wid p : nat) (x : spec_float) : string :=
  match x with
  | S754_nan => pad_left " "%char wid "NaN"
  | S754_infinity s => pad_left " "%char wid (if s then "-Inf" else "+Inf")
  | _ =>
      let ds := fixed_digits p x in
      if Float.sign x then
        if zero then "-" +:+ pad_left "0"%char (wid - 1)%nat ds
        else pad_left " "%char wid ("-" +:+ ds)
      else pad_left (if zero then "0" else " ")%char wid ds
  end.

(** ** Strings as byte sequences, [range] and the checksum loop *)

Definition CRLF : string := String (ascii_of_N 13) (String (ascii_of_N 10) "").

Definition bytes (s : string) : list N := map N_of_ascii (list_ascii_of_string s).

(** Text without bytes above 127. *)
Definition is_ascii (s : string) : Prop := Forall (fun b => (b < 128)%N) (bytes s).

(** [strings.Contains] *)
Fixpoint Contains (s substr : string) : bool :=
  String.prefix substr s ||
  match s with
  | EmptyString => false
  | String _ s' => Contains s' substr
  end.

(** The number of bytes that one step of [for i := range s] advances: one
    for an ASCII byte or an ill-formed sequence, the length of the encoding
    for a well-formed UTF-8 sequence (the runtime's [decoderune]). *)
Definition is_cont (b : N) : bool := ((128 <=? b) && (b <=? 191))%N.

Definition rune_width (bs : list N) : nat :=
  match bs with
  | [] => 1
  | b0 :: tl =>
      if (b0 <? 128)%N then 1
      else if ((192 <=? b0) && (b0 <? 224))%N then
        match tl with
        | b1 :: _ =>
            if is_cont b1 &&
               (127 <? N.lor (N.shiftl (N.land b0 31) 6) (N.land b1 63))%N
            then 2 else 1
        | _ => 1
        end
      else if ((224 <=? b0) && (b0 <? 240))%N then
        match tl with
        | b1 :: b2 :: _ =>
            let r := N.lor (N.lor (N.shiftl (N.land b0 15) 12)
                                  (N.shiftl (N.land b1 63) 6)) (N.land b2 63) in
            if is_cont b1 && is_cont b2 && (2047 <? r)%N &&
               negb ((55296 <=? r) && (r <=? 57343))%N
            then 3 else 1
        | _ => 1
        end
      else if ((240 <=? b0) && (b0 <? 248))%N then
        match tl with
        | b1 :: b2 :: b3 :: _ =>
            let r := N.lor (N.lor (N.lor (N.shiftl (N.land b0 7) 18)
                                         (N.shiftl (N.land b1 63) 12))
                                  (N.shiftl (N.land b2 63) 6)) (N.land b3 63) in
            if is_cont b1 && is_cont b2 && is_cont b3 &&
               (65535 <? r)%N && (r <=? 1114111)%N
            then 4 else 1
        | _ => 1
        end
      else 1
  end.

(** [for i := range msg { checksum = checksum ^ byte(msg[i]) }]: [i] visits
    the first byte of every rune. *)
Fixpoint range_xor (fuel : nat) (bs : list N) (checksum : N) : N :=
  match fuel, bs with
  | S fuel', b :: _ =>
      range_xor fuel' (skipn (rune_width bs) bs) (N.lxor checksum b)
  | _, _ => checksum
  end.

Definition checksum_of (msg : string) : Z :=
  Z.of_N (range_xor (String.length msg) (bytes msg) 0).

(** The XOR of every byte, the checksum NMEA 0183 defines. *)
Definition xor_bytes (msg : string) : Z :=
  Z.of_N (fold_left N.lxor (bytes msg) 0%N).

(** [fmt.Sprintf("$%s*%02X\r\n", msg, checksum)], as in the PFLAA and PFLAU
    paths. *)
Definition frame_02X (msg : string) : string :=
  "$" +:+ msg +:+ "*" +:+ fmt_02X (checksum_of msg) +:+ CRLF.

(** [fmt.Sprintf("$%s*%X\r\n", msg, checksum)], as in the GPRMC and GPGGA
    paths. *)
Definition frame_X (msg : string) : string :=
  "$" +:+ msg +:+ "*" +:+ fmt_X (checksum_of msg) +:+ CRLF.

(** ** Data read by the sentence generators *)

(** Modelled from the spec: the declaration of [TrafficInfo] is not part of
    [gen_flarm.go]; the fields are those the file reads, typed by the way it
    uses them (section 3, TrafficTarget). *)
Record TrafficInfo := {
  Icao_addr : Z;            (* 24-bit address, unsigned *)
  Tail : string;
  Emitter_category : Z;     (* uint8 *)
  SignalLevel : float64;
  Position_valid : bool;
  Lat : float32;
  Lng : float32;
  Alt : Z;                  (* feet, signed *)
  Track : Z;                (* degrees, unsigned; 0 is the invalid sentinel *)
  Speed : Z;                (* knots, unsigned *)
  Speed_valid : bool;
  Vvel : Z;                 (* feet per minute, signed *)
  Bearing : float64
}.

(** Modelled from the spec: the declaration of [mySituation] is not part of
    [gen_flarm.go]; field types follow the list in the comment of
    [makeGPRMCString] (section 3, OwnshipState). *)
Record SituationData := {
  GPSLastFixSinceMidnightUTC : Z;   (* uint32 *)
  GPSLatitude : float32;
  GPSLongitude : float32;
  GPSFixQuality : Z;                (* uint8 *)
  GPSGeoidSep : float32;            (* feet *)
  GPSSatellites : Z;                (* uint16 *)
  GPSAltitudeMSL : float32;         (* feet *)
  GPSTrueCourse : Z;                (* uint16 *)
  GPSGroundSpeed : Z;               (* uint16 *)
  BaroPressureAltitude : float32    (* feet *)
}.

Record settings := {
  DEBUG : bool;
  NetworkFLARM : bool
}.

(** Everything a generator reads besides its argument, taken as one
    snapshot: the globals [mySituation] and [globalSettings], the answers of
    [isGPSValid()] and [isTempPressValid()] (defined elsewhere in the
    repository), and the date [time.Now().UTC().Date()] returns. *)
Record World := {
  mySituation : SituationData;
  globalSettings : settings;
  isGPSValid : bool;
  isTempPressValid : bool;
  utcDate : Z * Z * Z               (* year, month, day *)
}.

(** What leaves a generator other than by its results. *)
Inductive effect :=
| SendMsg (msg : string)     (* sendMsg([]byte(msg), NETWORK_FLARM_NMEA, false) *)
| ChanSend (msg : string).   (* msgchan <- msg *)

(** ** [InBetween] and [sendNetFLARM] *)

Definition InBetween (i min max : Z) : bool := (min <=? i) && (i <=? max).

Definition sendNetFLARM (w : World) (msg : string) : list effect :=
  (if NetworkFLARM (globalSettings w) then [SendMsg msg] else []) ++ [ChanSend msg].

(** ** [makeFlarmPFLAAString] *)

(** The six signal bands of the second regime; 0 when no band applies. *)
Definition signal_range (sl : float64) : Z :=
  if Float.gt sl (F64.of_Z (-5)) then 463
  else if Float.gt sl (F64.of_Z (-10)) then 3704
  else if Float.gt sl (F64.of_Z (-15)) then 7408
  else if Float.gt sl (F64.of_Z (-18)) then 11112
  else if Float.gt sl (F64.of_Z (-20)) then 14816
  else if Float.gt sl (F64.of_Z (-25)) then 29632
  else 0.

(** [altf], the own altitude the vertical offset is taken against. *)
Definition own_altitude (w : World) (ti : TrafficInfo) : float32 :=
  if negb (isTempPressValid w) then GPSAltitudeMSL (mySituation w)
  else if Contains (Tail ti) "F-" then GPSAltitudeMSL (mySituation w)
  else BaroPressureAltitude (mySituation w).

(** The alarm bands: (alarmLevel, alarmType). *)
Definition alarm_bands (dist : float64) (relativeVertical : Z) : Z * Z :=
  if Float.lt dist (F64.of_Z 926) && InBetween relativeVertical (-304) 304 then (3, 2)
  else if Float.lt dist (F64.of_Z 4000) && InBetween relativeVertical (-304) 304 then (3, 2)
  else if Float.lt dist (F64.of_Z 8000) && InBetween relativeVertical (-304) 304 then (2, 2)
  else if Float.lt dist (F64.of_Z 12000) && InBetween relativeVertical (-304) 304 then (1, 2)
  else (0, 0).

(** Feet to meters as the PFLAA path does it at lines 194 and 241: times the
    constant 0.3048. *)
Definition feet_to_meters (feet : float32) : float32 :=
  F32.mul feet (F32.const 3048 10000).

(** Lines 242-246: the limit of the climb rate field. *)
Definition limit_climb (climbRate : float32) : float32 :=
  if Float.gt climbRate (F32.const 327 10) then F32.const 327 10
  else if Float.lt climbRate (Float.neg (F32.const 327 10)) then Float.neg (F32.const 327 10)
  else climbRate.

(** [climbRate] in meters per second, limited to +/-32.7 *)
Definition climb_rate (vvel : Z) : float32 :=
  limit_climb (F32.div (F32.mul (F32.of_Z vvel) (F32.const 3048 10000)) (F32.of_Z 60)).

Definition aircraft_type (cat : Z) : Z :=
  if cat =? 9 then 1
  else if cat =? 7 then 3
  else if cat =? 1 then 8
  else if (2 <=? cat) && (cat <=? 6) then 9
  else 0.

(** The branch taken at lines 128-184. *)
Inductive regime := FullFix | SignalStrength.

Definition select_regime (w : World) (ti : TrafficInfo) : option regime :=
  let alt_valid := 0 <? Alt ti in
  let track_valid := 0 <? Track ti in
  if negb alt_valid then None
  else if alt_valid && Position_valid ti && Speed_valid ti && isGPSValid w
          && (0 <? GPSFixQuality (mySituation w)) then Some FullFix
  else if alt_valid && negb (Position_valid ti) && negb (Speed_valid ti)
          && negb track_valid && isGPSValid w
          && (0 <? GPSFixQuality (mySituation w)) then Some SignalStrength
  else None.

(** What lines 112-235 establish about a target that is not rejected. *)
Record classification := {
  relativeNorth : Z;
  rEast : string;
  track : string;
  modec_valid : bool;
  dist : float64;
  relativeVertical : Z;
  alarmLevel : Z;
  alarmType : Z
}.

Definition have_fix (w : World) : bool :=
  isGPSValid w && (0 <? GPSFixQuality (mySituation w)).

Definition blank_PFLAU : string := frame_02X "PFLAU,1,1,2,1,0,,0,,,".

Section Generator.
Variable cvt_indefinite : spec_float -> Z.

(** [distRect] is defined elsewhere in the repository: it returns the
    distance, the bearing and the north and east offsets in meters. *)
Variable distRect : float64 -> float64 -> float64 -> float64 ->
                    float64 * float64 * float64 * float64.

Definition int16 : spec_float -> Z := int16_of_float cvt_indefinite.

Definition relative_vertical (w : World) (ti : TrafficInfo) : Z :=
  int16 (F32.sub (F32.mul (F32.of_Z (Alt ti)) (F32.const 3048 10000))
                 (F32.mul (own_altitude w ti) (F32.const 3048 10000))).

(** Lines 113-235: regime, offsets, vertical band and alarm level; [None]
    on each [valid = false; return]. *)
Definition classify (w : World) (ti : TrafficInfo) : option classification :=
  let '(dist, bearing, distN, distE) :=
    distRect (F64.of_f32 (GPSLatitude (mySituation w)))
             (F64.of_f32 (GPSLongitude (mySituation w)))
             (F64.of_f32 (Lat ti)) (F64.of_f32 (Lng ti)) in
  match
    match select_regime w ti with
    | None => None
    | Some FullFix =>
        Some (int16 distN, Itoa (int16 distE), Itoa (Track ti), false, dist)
    | Some SignalStrength =>
        let relativeNorth := signal_range (SignalLevel ti) in
        if relativeNorth =? 0 then None
        else Some (relativeNorth, "", "", true, F64.of_Z relativeNorth)
    end
  with
  | None => None
  | Some (relativeNorth, rEast, track, modec_valid, dist) =>
      let relativeVertical := relative_vertical w ti in
      if modec_valid && negb (InBetween relativeVertical (-310) 310) then None
      else
        let '(alarmLevel, alarmType) := alarm_bands dist relativeVertical in
        Some {| relativeNorth := relativeNorth; rEast := rEast; track := track;
                modec_valid := modec_valid; dist := dist;
                relativeVertical := relativeVertical;
                alarmLevel := alarmLevel; alarmType := alarmType |}
  end.

(** Lines 237-276: the PFLAA sentence. *)
Definition PFLAA (ti : TrafficInfo) (c : classification) : string :=
  let idType := 1 in
  let '(gSpeed, cRate) :=
    if Speed_valid ti then
      (Itoa (int16 (F32.mul (F32.of_Z (Speed ti)) (F32.const 5144 10000))),
       fmt_f false 0 1 (climb_rate (Vvel ti)))
    else ("", "") in
  let acType := aircraft_type (Emitter_category ti) in
  frame_02X
    ("PFLAA," +:+ fmt_d (alarmLevel c) +:+ "," +:+ fmt_d (relativeNorth c) +:+ ","
     +:+ rEast c +:+ "," +:+ fmt_d (relativeVertical c) +:+ "," +:+ fmt_d idType
     +:+ "," +:+ fmt_X (Icao_addr ti) +:+ "!" +:+ Tail ti +:+ "," +:+ track c
     +:+ ",," +:+ gSpeed +:+ "," +:+ cRate +:+ "," +:+ fmt_d acType).

(** Lines 286-290: [relativeBearing] starts at its zero value and is
    assigned in these two branches only. *)
Definition relative_bearing (ti : TrafficInfo) : float64 :=
  if Float.gt (Bearing ti) (F64.of_Z 180) then F64.sub (Bearing ti) (F64.of_Z 360)
  else if Float.lt (Bearing ti) (F64.of_Z (-180)) then F64.add (Bearing ti) (F64.of_Z 360)
  else S754_zero false.

(** Lines 292-298: the PFLAU sentence with the alarm fields filled. *)
Definition populated_PFLAU (ti : TrafficInfo) (c : classification) : string :=
  frame_02X
    ("PFLAU,1,1,2,1," +:+ fmt_d (alarmLevel c) +:+ ","
     +:+ fmt_d (int16 (relative_bearing ti)) +:+ "," +:+ fmt_d (alarmType c)
     +:+ "," +:+ fmt_d (relativeVertical c) +:+ "," +:+ fmt_d (int16 (dist c))
     +:+ "," +:+ fmt_X (Icao_addr ti)).

(** Lines 281-308: [msgPFLAU]; it keeps its zero value, the empty string,
    when neither condition holds. *)
Definition PFLAU (w : World) (ti : TrafficInfo) (c : classification) : string :=
  if (0 <? alarmLevel c) && isGPSValid w && (0 <? GPSFixQuality (mySituation w))
     && negb (modec_valid c)
  then populated_PFLAU ti c
  else if isGPSValid w && (0 <? GPSFixQuality (mySituation w)) then blank_PFLAU
  else "".

(** The returned [(msg, valid)] and the effects, in order. *)
Definition makeFlarmPFLAAString (w : World) (ti : TrafficInfo)
  : (string * bool) * list effect :=
  match classify w ti with
  | None => (("", false), [])
  | Some c => ((PFLAA ti c, true), sendNetFLARM w (PFLAU w ti c))
  end.
End Generator.

(** ** [makeGPRMCString] and [makeGPGGAString] *)

(** [hr], [mins], [sec] from the seconds since midnight (both generators
    compute them with the same statements). *)
Definition utc_hms (since_midnight : Z) : float64 * float64 * float64 :=
  let lastFix := F64.of_Z since_midnight in
  let hr := F64.floor (F64.div lastFix (F64.of_Z 3600)) in
  let lastFix := F64.sub lastFix (F64.mul (F64.of_Z 3600) hr) in
  let mins := F64.floor (F64.div lastFix (F64.of_Z 60)) in
  let sec := F64.sub lastFix (F64.mul mins (F64.of_Z 60)) in
  (hr, mins, sec).

(** A signed angle in degrees as unsigned [ddmm.mmmmm] and whether it was
    negative. *)
Definition deg_min (angle : float32) : float64 * bool :=
  let x := F64.of_f32 angle in
  let negative := Float.lt x (S754_zero false) in
  let x := if negative then Float.neg x else x in
  let deg := F64.floor x in
  let min := F64.mul (F64.sub x deg) (F64.of_Z 60) in
  (F64.add (F64.mul deg (F64.of_Z 100)) min, negative).

Definition fmt_hms (since_midnight : Z) : string :=
  let '(hr, mins, sec) := utc_hms since_midnight in
  fmt_f true 2 0 hr +:+ fmt_f true 2 0 mins +:+ fmt_f true 5 2 sec.

Definition gprmc_status (w : World) : string :=
  if isGPSValid w && (0 <? GPSFixQuality (mySituation w)) then "A" else "V".

Definition gprmc_mode (w : World) : string :=
  if GPSFixQuality (mySituation w) =? 1 then "A"
  else if GPSFixQuality (mySituation w) =? 2 then "D"
  else "N".

Definition gprmc_date (w : World) : string :=
  let '(yy, mm, dd) := utcDate w in
  let yy := Z.rem yy 100 in
  fmt_0d 2 dd +:+ fmt_0d 2 mm +:+ fmt_0d 2 yy.

(** The sentence body of [makeGPRMCString], before framing. *)
Definition gprmc_body (w : World) : string :=
  let s := mySituation w in
  let '(lat, south) := deg_min (GPSLatitude s) in
  let ns := if south then "S" else "N" in
  let '(lng, west) := deg_min (GPSLongitude s) in
  let ew := if west then "W" else "E" in
  let gs := F32.of_Z (GPSGroundSpeed s) in
  let trueCourse := F32.of_Z (GPSTrueCourse s) in
  let magVar := "" in
  let mvEW := "" in
  if isGPSValid w then
    "GPRMC," +:+ fmt_hms (GPSLastFixSinceMidnightUTC s) +:+ "," +:+ gprmc_status w
    +:+ "," +:+ fmt_f true 10 5 lat +:+ "," +:+ ns
    +:+ "," +:+ fmt_f true 11 5 lng +:+ "," +:+ ew
    +:+ "," +:+ fmt_f false 0 1 gs +:+ "," +:+ fmt_f false 0 1 trueCourse
    +:+ "," +:+ gprmc_date w +:+ "," +:+ magVar +:+ "," +:+ mvEW +:+ "," +:+ gprmc_mode w
  else
    "GPRMC,," +:+ gprmc_status w +:+ ",,,,,,," +:+ gprmc_date w
    +:+ "," +:+ magVar +:+ "," +:+ mvEW +:+ "," +:+ gprmc_mode w.

Definition makeGPRMCString (w : World) : string := frame_X (gprmc_body w).

(** Feet to meters as [makeGPGGAString] does it. *)
Definition gga_meters (feet : float32) : float32 :=
  F32.div feet (F32.const 328084 100000).

Definition gpgga_body (w : World) : string :=
  let thisSituation := mySituation w in
  let '(lat, south) := deg_min (GPSLatitude (mySituation w)) in
  let ns := if south then "S" else "N" in
  let '(lng, west) := deg_min (GPSLongitude (mySituation w)) in
  let ew := if west then "W" else "E" in
  let numSV := if 12 <? GPSSatellites thisSituation then 12
               else GPSSatellites thisSituation in
  let hdop := F64.of_Z 1 in
  let alt := gga_meters (GPSAltitudeMSL thisSituation) in
  let geoidSep := gga_meters (GPSGeoidSep thisSituation) in
  if isGPSValid w then
    "GPGGA," +:+ fmt_hms (GPSLastFixSinceMidnightUTC thisSituation)
    +:+ "," +:+ fmt_f true 10 5 lat +:+ "," +:+ ns
    +:+ "," +:+ fmt_f true 11 5 lng +:+ "," +:+ ew
    +:+ "," +:+ fmt_d (GPSFixQuality thisSituation) +:+ "," +:+ fmt_d numSV
    +:+ "," +:+ fmt_f false 0 2 hdop +:+ "," +:+ fmt_f false 0 1 alt +:+ ",M,"
    +:+ fmt_f false 0 1 geoidSep +:+ ",M,,"
  else "GPTXT,No valid Stratux GPS position".

Definition makeGPGGAString (w : World) : string := frame_X (gpgga_body w).

(** ** [handleMessages]: the registry of the TCP server *)

(** A [net.Conn] and a channel are known by their identity. *)
Definition conn := positive.
Definition chan := positive.

Record tcpClient := {
  client_conn : conn;
  client_ch : chan
}.

(** What one iteration of the [select] receives. *)
Inductive received :=
| FromMsgchan (msg : string)
| FromAddchan (client : tcpClient)
| FromRmchan (client : tcpClient).

(** A goroutine [go func(mch chan<- string) { mch <- msg }(ch)]. *)
Record dispatch := {
  to_chan : chan;
  payload : string
}.

(** One iteration of the loop: the [clients] map afterwards and the
    goroutines started.  The order in which [range clients] visits the map is
    not specified; [map_to_list] fixes one. *)
Definition handle (clients : gmap conn chan) (r : received)
  : gmap conn chan * list dispatch :=
  match r with
  | FromMsgchan msg =>
      (clients,
       (fun kv => {| to_chan := snd kv; payload := msg |}) <$> map_to_list clients)
  | FromAddchan client => (<[client_conn client := client_ch client]> clients, [])
  | FromRmchan client => (delete (client_conn client) clients, [])
  end.

(** The loop over the events received so far, from [clients]; the source
    starts it from the empty map. *)
Fixpoint handleMessages_from (clients : gmap conn chan) (rs : list received)
  : gmap conn chan * list dispatch :=
  match rs with
  | [] => (clients, [])
  | r :: rs' =>
      let '(clients', ds) := handle clients r in
      let '(clients'', ds') := handleMessages_from clients' rs' in
      (clients'', ds ++ ds')
  end.

Definition handleMessages (rs : list received) : gmap conn chan * list dispatch :=
  handleMessages_from ∅ rs.

(** ** Sample inputs *)

Module Sample.

Definition cvt (_ : spec_float) : Z := 0.

(** A [distRect] that answers with fixed values. *)
Definition rect (dist bearing distN distE : Z)
  : float64 -> float64 -> float64 -> float64 -> float64 * float64 * float64 * float64 :=
  fun _ _ _ _ => (F64.of_Z dist, F64.of_Z bearing, F64.of_Z distN, F64.of_Z distE).

Definition situation : SituationData := {|
  GPSLastFixSinceMidnightUTC := 45319;
  GPSLatitude := F32.of_Z 47;
  GPSLongitude := F32.of_Z 8;
  GPSFixQuality := 1;
  GPSGeoidSep := F32.of_Z 150;
  GPSSatellites := 9;
  GPSAltitudeMSL := F32.of_Z 2500;
  GPSTrueCourse := 84;
  GPSGroundSpeed := 22;
  BaroPressureAltitude := F32.of_Z 2400
|}.

Definition world : World := {|
  mySituation := situation;
  globalSettings := {| DEBUG := false; NetworkFLARM := true |};
  isGPSValid := true;
  isTempPressValid := true;
  utcDate := (2018, 3, 23)
|}.

(** The same ownship while [isGPSValid()] answers false. *)
Definition world_no_fix : World := {|
  mySituation := situation;
  globalSettings := {| DEBUG := false; NetworkFLARM := true |};
  isGPSValid := false;
  isTempPressValid := true;
  utcDate := (2018, 3, 23)
|}.

(** An ADS-B target with position, speed and track. *)
Definition target : TrafficInfo := {|
  Icao_addr := 10875630;
  Tail := "HBABC";
  Emitter_category := 1;
  SignalLevel := F64.of_Z (-3);
  Position_valid := true;
  Lat := F32.const 471 10;
  Lng := F32.of_Z 8;
  Alt := 3000;
  Track := 136;
  Speed := 120;
  Speed_valid := true;
  Vvel := -640;
  Bearing := F64.of_Z 90
|}.

(** The same target flying due north: track 0. *)
Definition target_track0 : TrafficInfo := {|
  Icao_addr := 10875630;
  Tail := "HBABC";
  Emitter_category := 1;
  SignalLevel := F64.of_Z (-3);
  Position_valid := true;
  Lat := F32.const 471 10;
  Lng := F32.of_Z 8;
  Alt := 3000;
  Track := 0;
  Speed := 120;
  Speed_valid := true;
  Vvel := -640;
  Bearing := F64.of_Z 90
|}.

(** A target on the ground level of the altitude encoding: [Alt = 0]. *)
Definition target_no_alt : TrafficInfo := {|
  Icao_addr := 10875630;
  Tail := "HBABC";
  Emitter_category := 1;
  SignalLevel := F64.of_Z (-3);
  Position_valid := true;
  Lat := F32.const 471 10;
  Lng := F32.of_Z 8;
  Alt := 0;
  Track := 136;
  Speed := 120;
  Speed_valid := true;
  Vvel := -640;
  Bearing := F64.of_Z 90
|}.

(** The target at the ownship's barometric level. *)
Definition target_level : TrafficInfo := {|
  Icao_addr := 10875630;
  Tail := "HBABC";
  Emitter_category := 1;
  SignalLevel := F64.of_Z (-3);
  Position_valid := true;
  Lat := F32.const 471 10;
  Lng := F32.of_Z 8;
  Alt := 2400;
  Track := 136;
  Speed := 120;
  Speed_valid := true;
  Vvel := -640;
  Bearing := F64.of_Z 0
|}.

(** The target bearing 200 degrees. *)
Definition target_bearing200 : TrafficInfo := {|
  Icao_addr := 10875630;
  Tail := "HBABC";
  Emitter_category := 1;
  SignalLevel := F64.of_Z (-3);
  Position_valid := true;
  Lat := F32.const 471 10;
  Lng := F32.of_Z 8;
  Alt := 3000;
  Track := 136;
  Speed := 120;
  Speed_valid := true;
  Vvel := -640;
  Bearing := F64.of_Z 200
|}.

(** A transponder heard without position, speed or track. *)
Definition target_mode_c : TrafficInfo := {|
  Icao_addr := 10875630;
  Tail := "HBABC";
  Emitter_category := 1;
  SignalLevel := F64.of_Z (-3);
  Position_valid := false;
  Lat := S754_zero false;
  Lng := S754_zero false;
  Alt := 3000;
  Track := 0;
  Speed := 0;
  Speed_valid := false;
  Vvel := 0;
  Bearing := S754_zero false
|}.

(** A fix that [isGPSValid()] accepts while the fix quality is 0. *)
Definition world_quality0 : World := {|
  mySituation := {|
    GPSLastFixSinceMidnightUTC := 45319;
    GPSLatitude := F32.of_Z 47;
    GPSLongitude := F32.of_Z 8;
    GPSFixQuality := 0;
    GPSGeoidSep := F32.of_Z 150;
    GPSSatellites := 9;
    GPSAltitudeMSL := F32.of_Z 2500;
    GPSTrueCourse := 84;
    GPSGroundSpeed := 22;
    BaroPressureAltitude := F32.of_Z 2400
  |};
  globalSettings := {| DEBUG := false; NetworkFLARM := true |};
  isGPSValid := true;
  isTempPressValid := true;
  utcDate := (2018, 3, 23)
|}.

(** A fix whose latitude is not a number. *)
Definition world_nan : World := {|
  mySituation := {|
    GPSLastFixSinceMidnightUTC := 45319;
    GPSLatitude := S754_nan;
    GPSLongitude := F32.of_Z 8;
    GPSFixQuality := 1;
    GPSGeoidSep := F32.of_Z 150;
    GPSSatellites := 10;
    GPSAltitudeMSL := F32.of_Z 2500;
    GPSTrueCourse := 84;
    GPSGroundSpeed := 22;
    BaroPressureAltitude := F32.of_Z 2400
  |};
  globalSettings := {| DEBUG := false; NetworkFLARM := true |};
  isGPSValid := true;
  isTempPressValid := true;
  utcDate := (2018, 3, 23)
|}.

(** An ownship at 27573 ft. *)
Definition world_high : World := {|
  mySituation := {|
    GPSLastFixSinceMidnightUTC := 45319;
    GPSLatitude := F32.of_Z 47;
    GPSLongitude := F32.of_Z 8;
    GPSFixQuality := 1;
    GPSGeoidSep := F32.of_Z 150;
    GPSSatellites := 9;
    GPSAltitudeMSL := F32.of_Z 27573;
    GPSTrueCourse := 84;
    GPSGroundSpeed := 22;
    BaroPressureAltitude := F32.of_Z 27573
  |};
  globalSettings := {| DEBUG := false; NetworkFLARM := true |};
  isGPSValid := true;
  isTempPressValid := true;
  utcDate := (2018, 3, 23)
|}.

(** A callsign with a letter outside ASCII: E acute, bytes C3 89. *)
Definition tail_non_ascii : string :=
  String "F" (String "-" (String (ascii_of_N 195) (String (ascii_of_N 137) ""))).

End Sample.

(** ** Variations of a snapshot *)

Definition with_situation (w : World) (s : SituationData) : World := {|
  mySituation := s;
  globalSettings := globalSettings w;
  isGPSValid := isGPSValid w;
  isTempPressValid := isTempPressValid w;
  utcDate := utcDate w
|}.

(** The snapshot with another barometric altitude. *)
Definition with_baro (w : World) (baro : float32) : World :=
  with_situation w {|
    GPSLastFixSinceMidnightUTC := GPSLastFixSinceMidnightUTC (mySituation w);
    GPSLatitude := GPSLatitude (mySituation w);
    GPSLongitude := GPSLongitude (mySituation w);
    GPSFixQuality := GPSFixQuality (mySituation w);
    GPSGeoidSep := GPSGeoidSep (mySituation w);
    GPSSatellites := GPSSatellites (mySituation w);
    GPSAltitudeMSL := GPSAltitudeMSL (mySituation w);
    GPSTrueCourse := GPSTrueCourse (mySituation w);
    GPSGroundSpeed := GPSGroundSpeed (mySituation w);
    BaroPressureAltitude := baro
  |}.

(** The snapshot with another number of satellites. *)
Definition with_satellites (w : World) (n : Z) : World :=
  with_situation w {|
    GPSLastFixSinceMidnightUTC := GPSLastFixSinceMidnightUTC (mySituation w);
    GPSLatitude := GPSLatitude (mySituation w);
    GPSLongitude := GPSLongitude (mySituation w);
    GPSFixQuality := GPSFixQuality (mySituation w);
    GPSGeoidSep := GPSGeoidSep (mySituation w);
    GPSSatellites := n;
    GPSAltitudeMSL := GPSAltitudeMSL (mySituation w);
    GPSTrueCourse := GPSTrueCourse (mySituation w);
    GPSGroundSpeed := GPSGroundSpeed (mySituation w);
    BaroPressureAltitude := BaroPressureAltitude (mySituation w)
  |}.

(** ** [WriteLinesFrom] and [handleConnection]: the session of one client *)

(** What a session does, in order.  [ok] tells whether the write returned
    no error. *)
Inductive session_event :=
| WriteString (s : string) (ok : bool)   (* io.WriteString(c.conn, s) *)
| ToAddchan (client : tcpClient)         (* addchan <- client *)
| ToRmchan (client : tcpClient)          (* rmchan <- client *)
| CloseConn.                             (* c.Close() *)

(** [WriteLinesFrom] on the messages [msgs] that arrive on the channel, the
    writes of the connection being numbered from [n] and [write_ok k] telling
    whether the [k]-th of them succeeds: the writes done, and whether the
    loop was left by the [return] after a failed write. *)
Fixpoint WriteLinesFrom (write_ok : nat -> bool) (n : nat) (msgs : list string)
  : list session_event * bool :=
  match msgs with
  | [] => ([], false)
  | msg :: msgs' =>
      if write_ok n then
        let '(evs, failed) := WriteLinesFrom write_ok (S n) msgs' in
        (WriteString msg true :: evs, failed)
      else ([WriteString msg false], true)
  end.

(** [handleConnection] for the connection [c], the channel [ch] made for it,
    the messages [msgs] that arrive on [ch] and [closed], whether the channel
    is closed after them: the two handshake writes, whose results are
    ignored, the registration, the sentences, and, when the write loop is
    left, the deferred calls in their order (last deferred first). *)
Definition handleConnection (write_ok : nat -> bool) (c : conn) (ch : chan)
    (msgs : list string) (closed : bool) : list session_event :=
  let client := {| client_conn := c; client_ch := ch |} in
  let '(evs, failed) := WriteLinesFrom write_ok 2 msgs in
  [WriteString "PASS?" (write_ok 0%nat); WriteString "AOK" (write_ok 1%nat);
   ToAddchan client]
  ++ evs
  ++ (if failed || closed then [ToRmchan client; CloseConn] else []).

(** The text of the writes that succeeded, in order: what the client reads. *)
Fixpoint received_text (evs : list session_event) : string :=
  match evs with
  | [] => ""
  | WriteString s true :: evs' => s +:+ received_text evs'
  | _ :: evs' => received_text evs'
  end.

(** The messages of a channel one after the other. *)
Fixpoint concat_text (msgs : list string) : string :=
  match msgs with
  | [] => ""
  | m :: msgs' => m +:+ concat_text msgs'
  end.

(** The events a session sends to the registry. *)
Fixpoint registry_events (evs : list session_event) : list received :=
  match evs with
  | [] => []
  | ToAddchan client :: evs' => FromAddchan client :: registry_events evs'
  | ToRmchan client :: evs' => FromRmchan client :: registry_events evs'
  | _ :: evs' => registry_events evs'
  end.

(** ** A further sample *)

Module SampleFlarm.
(** A FLARM target: its callsign carries the prefix "F-". *)
Definition target_flarm : TrafficInfo := {|
  Icao_addr := 14540253;
  Tail := "F-DDA5BA";
  Emitter_category := 9;
  SignalLevel := F64.of_Z (-3);
  Position_valid := true;
  Lat := F32.const 471 10;
  Lng := F32.of_Z 8;
  Alt := 3000;
  Track := 136;
  Speed := 60;
  Speed_valid := true;
  Vvel := 200;
  Bearing := F64.of_Z 90
|}.
End SampleFlarm.

(** ** The registry entry of one connection, read off the events *)

(** The channel registered for [c] after the events [rs], [before] being
    its entry before them: the last [addchan] or [rmchan] event that names
    [c] decides. *)
Fixpoint registered (rs : list received) (c : conn) (before : option chan)
  : option chan :=
  match rs with
  | [] => before
  | FromAddchan client :: rs' =>
      registered rs' c
        (if Pos.eqb (client_conn client) c then Some (client_ch client) else before)
  | FromRmchan client :: rs' =>
      registered rs' c (if Pos.eqb (client_conn client) c then None else before)
  | FromMsgchan _ :: rs' => registered rs' c before
  end.

Definition is_add (r : received) : bool :=
  match r with FromAddchan _ => true | _ => false end.

(** * Properties *)

(** ** Strings and digits *)

#[local] Arguments String.append !_ _ / : simpl nomatch.

Lemma append_assoc (a b c : string) : (a +:+ b) +:+ c = a +:+ (b +:+ c).
Proof. induction a as [| x a IH]; simpl; [reflexivity | now rewrite IH]. Qed.

Lemma append_nil_r (a : string) : a +:+ "" = a.
Proof. induction a as [| x a IH]; simpl; [reflexivity | now rewrite IH]. Qed.

Lemma length_append (a b : string) :
  String.length (a +:+ b) = (String.length a + String.length b)%nat.
Proof. induction a as [| x a IH]; simpl; [reflexivity | now rewrite IH]. Qed.

Lemma digits_go_head (fuel : nat) (base n : N) (acc : string) :
  exists d s, digits_go (S fuel) base n acc = String (digit_char (d mod base)) s.
Proof.
  revert n acc. induction fuel as [| fuel IH]; intros n acc.
  - exists n, acc. simpl. now destruct (n / base =? 0)%N.
  - change (digits_go (S (S fuel)) base n acc)
      with (let acc' := String (digit_char (n mod base)) acc in
            if (n / base =? 0)%N then acc'
            else digits_go (S fuel) base (n / base) acc').
    simpl. destruct (n / base =? 0)%N.
    + now exists n, acc.
    + apply IH.
Qed.

Lemma digits_head (base n : N) :
  exists d s, digits base n = String (digit_char (d mod base)) s.
Proof. apply digits_go_head. Qed.

Lemma digit_char_code (d : N) :
  (d < 16)%N -> (48 <= N_of_ascii (digit_char d) < 71)%N.
Proof.
  intros Hd. unfold digit_char.
  destruct (N.ltb_spec d 10); rewrite N_ascii_embedding; lia.
Qed.

Lemma digit_char_not_comma (base d : N) :
  (0 < base <= 16)%N -> digit_char (d mod base) <> ","%char.
Proof.
  intros Hb E.
  assert (Hd : (d mod base < 16)%N).
  { pose proof (N.mod_upper_bound d base). lia. }
  pose proof (digit_char_code _ Hd) as Hc. rewrite E in Hc. simpl in Hc. lia.
Qed.

(** A decimal number never starts with a comma (nor is it empty). *)
Lemma fmt_d_head (z : Z) :
  exists c s, fmt_d z = String c s /\ c <> ","%char.
Proof.
  unfold fmt_d. destruct (z <? 0).
  - exists "-"%char, (digits 10 (Z.to_N (- z))). split; [reflexivity | discriminate].
  - destruct (digits_head 10 (Z.to_N z)) as (d & s & ->).
    exists (digit_char (d mod 10)), s. split; [reflexivity |].
    apply digit_char_not_comma. lia.
Qed.

Lemma digits_nonempty (base n : N) : digits base n <> "".
Proof. destruct (digits_head base n) as (d & s & ->). discriminate. Qed.

Lemma digit_value_char (d : N) : (d < 16)%N -> digit_value (digit_char d) = d.
Proof.
  intros Hd. unfold digit_value, digit_char.
  destruct (N.ltb_spec d 10) as [H10 | H10]; rewrite N_ascii_embedding by lia.
  - destruct (N.ltb_spec (48 + d) 58); lia.
  - destruct (N.ltb_spec (55 + d) 58); lia.
Qed.

Lemma size_nat_bound (n : N) : (n < 2 ^ N.of_nat (N.size_nat n))%N.
Proof.
  destruct n as [| p]; [reflexivity |]. simpl N.size_nat.
  induction p as [p IH | p IH |]; simpl Pos.size_nat.
  - rewrite Nat2N.inj_succ, N.pow_succ_r'. lia.
  - rewrite Nat2N.inj_succ, N.pow_succ_r'. lia.
  - reflexivity.
Qed.

(** The digit loop stops by itself within its fuel, and what it prints
    denotes the number. *)
Lemma digits_go_value (fuel : nat) (base n : N) (acc : string) :
  (2 <= base <= 16)%N -> (n < 2 ^ N.of_nat fuel)%N ->
  value_of base (digits_go (S fuel) base n acc) 0 = value_of base acc n.
Proof.
  intros Hb. revert n acc. induction fuel as [| fuel IH]; intros n acc Hn.
  - assert (n = 0%N) as -> by (simpl in Hn; lia).
    simpl. rewrite N.Div0.mod_0_l. reflexivity.
  - change (digits_go (S (S fuel)) base n acc)
      with (let acc' := String (digit_char (n mod base)) acc in
            if (n / base =? 0)%N then acc'
            else digits_go (S fuel) base (n / base) acc').
    cbv zeta.
    assert (Hm : (n mod base < 16)%N).
    { pose proof (N.mod_upper_bound n base). lia. }
    destruct (N.eqb_spec (n / base) 0) as [Hq | Hq].
    + simpl. rewrite (digit_value_char _ Hm). f_equal.
      pose proof (N.div_mod n base). lia.
    + rewrite IH.
      * simpl. rewrite (digit_value_char _ Hm). f_equal.
        pose proof (N.div_mod n base). lia.
      * rewrite Nat2N.inj_succ, N.pow_succ_r' in Hn.
        apply N.Div0.div_lt_upper_bound.
        apply N.lt_le_trans with (2 * 2 ^ N.of_nat fuel)%N; [exact Hn |].
        apply N.mul_le_mono_r. lia.
Qed.

Lemma digits_value (base n : N) :
  (2 <= base <= 16)%N -> value_of base (digits base n) 0 = n.
Proof.
  intros Hb. unfold digits.
  rewrite digits_go_value; [reflexivity | exact Hb | apply size_nat_bound].
Qed.

Lemma pad_left_nonempty (c : ascii) (wid : nat) (s : string) :
  s <> "" -> pad_left c wid s <> "".
Proof.
  intros Hs. unfold pad_left.
  destruct (repeat_char c (wid - String.length s)); simpl; [assumption | discriminate].
Qed.

Lemma fixed_digits_nonempty (p : nat) (x : spec_float) : fixed_digits p x <> "".
Proof.
  unfold fixed_digits.
  match goal with |- context [digits 10 (Z.to_N (?a / _))] =>
    destruct (digits_head 10 (Z.to_N (a / 10 ^ Z.of_nat p))) as (d & s & E)
  end.
  rewrite E. destruct p; discriminate.
Qed.

(** Every [%f] field is at least one character long. *)
Lemma fmt_f_nonempty (zero : bool) (wid p : nat) (x : spec_float) :
  fmt_f zero wid p x <> "".
Proof.
  pose proof (fixed_digits_nonempty p x) as Hd.
  unfold fmt_f. destruct x as [s | s | | s m e]; simpl.
  - destruct s; [destruct zero; [discriminate |] |];
      apply pad_left_nonempty; (assumption || discriminate).
  - apply pad_left_nonempty. destruct s; discriminate.
  - apply pad_left_nonempty. discriminate.
  - destruct s; [destruct zero; [discriminate |] |];
      apply pad_left_nonempty; (assumption || discriminate).
Qed.

(** ** Control flow of [makeFlarmPFLAAString] *)

Section GeneratorFacts.
Variable cvt_indefinite : spec_float -> Z.
Variable distRect : float64 -> float64 -> float64 -> float64 ->
                    float64 * float64 * float64 * float64.

Abbreviation classify' := (classify cvt_indefinite distRect).
Abbreviation generate := (makeFlarmPFLAAString cvt_indefinite distRect).

Lemma select_regime_full_fix (w : World) (ti : TrafficInfo) :
  select_regime w ti = Some FullFix <->
  0 < Alt ti /\ Position_valid ti = true /\ Speed_valid ti = true /\
  isGPSValid w = true /\ 0 < GPSFixQuality (mySituation w).
Proof.
  unfold select_regime.
  destruct (Z.ltb_spec 0 (Alt ti)) as [Ha | Ha]; simpl;
    [| split; [discriminate | lia]].
  destruct (Position_valid ti), (Speed_valid ti), (isGPSValid w); simpl;
    destruct (Z.ltb_spec 0 (GPSFixQuality (mySituation w))) as [Hq | Hq];
    simpl; try destruct (0 <? Track ti); simpl;
    split; try discriminate; try tauto;
    try (intros (_ & H1 & H2 & H3 & H4); (discriminate || lia)).
Qed.

Lemma select_regime_signal (w : World) (ti : TrafficInfo) :
  select_regime w ti = Some SignalStrength <->
  0 < Alt ti /\ Position_valid ti = false /\ Speed_valid ti = false /\
  Track ti <= 0 /\ isGPSValid w = true /\ 0 < GPSFixQuality (mySituation w).
Proof.
  unfold select_regime.
  destruct (Z.ltb_spec 0 (Alt ti)) as [Ha | Ha]; simpl;
    [| split; [discriminate | lia]].
  destruct (Position_valid ti), (Speed_valid ti), (isGPSValid w); simpl;
    destruct (Z.ltb_spec 0 (GPSFixQuality (mySituation w))) as [Hq | Hq];
    simpl; try destruct (Z.ltb_spec 0 (Track ti)) as [Ht | Ht]; simpl;
    split; try discriminate; try tauto;
    try (intros (_ & H1 & H2 & H3 & H4 & H5); (discriminate || lia)).
Qed.

Lemma select_regime_have_fix (w : World) (ti : TrafficInfo) (r : regime) :
  select_regime w ti = Some r -> have_fix w = true.
Proof.
  unfold have_fix. destruct r; intros H.
  - apply select_regime_full_fix in H as (_ & _ & _ & -> & Hq).
    simpl. now apply Z.ltb_lt.
  - apply select_regime_signal in H as (_ & _ & _ & _ & -> & Hq).
    simpl. now apply Z.ltb_lt.
Qed.

(** A target is classified only under one of the two regimes. *)
Lemma classify_regime (w : World) (ti : TrafficInfo) (c : classification) :
  classify' w ti = Some c ->
  (select_regime w ti = Some FullFix /\ modec_valid c = false) \/
  (select_regime w ti = Some SignalStrength /\ modec_valid c = true).
Proof.
  unfold classify.
  destruct (distRect _ _ _ _) as [[[d b] dn] de].
  destruct (select_regime w ti) as [[|]|]; [| | discriminate].
  - simpl. destruct (alarm_bands _ _). intros [= <-]. now left.
  - destruct (signal_range _ =? 0); [discriminate|].
    destruct (_ && _); [discriminate|].
    destruct (alarm_bands _ _). intros [= <-]. now right.
Qed.

Lemma classify_have_fix (w : World) (ti : TrafficInfo) (c : classification) :
  classify' w ti = Some c -> have_fix w = true.
Proof.
  intros H. destruct (classify_regime _ _ _ H) as [[Hr _] | [Hr _]];
    eapply select_regime_have_fix; eassumption.
Qed.

Lemma alarm_bands_values (d : float64) (v : Z) :
  alarm_bands d v = (3, 2) \/ alarm_bands d v = (2, 2) \/
  alarm_bands d v = (1, 2) \/ alarm_bands d v = (0, 0).
Proof.
  unfold alarm_bands.
  repeat (destruct (_ && _); [tauto |]). tauto.
Qed.

Lemma classify_alarm (w : World) (ti : TrafficInfo) (c : classification) :
  classify' w ti = Some c ->
  (alarmLevel c, alarmType c) = alarm_bands (dist c) (relativeVertical c).
Proof.
  unfold classify.
  destruct (distRect _ _ _ _) as [[[d b] dn] de].
  destruct (select_regime w ti) as [[|]|]; [| | discriminate].
  - simpl. destruct (alarm_bands _ _) eqn:E. intros [= <-]. now simpl.
  - destruct (signal_range _ =? 0); [discriminate|].
    destruct (_ && _); [discriminate|].
    destruct (alarm_bands _ _) eqn:E. intros [= <-]. now simpl.
Qed.

Lemma classify_alarm_level (w : World) (ti : TrafficInfo) (c : classification) :
  classify' w ti = Some c ->
  alarmLevel c = 0 \/ alarmLevel c = 1 \/ alarmLevel c = 2 \/ alarmLevel c = 3.
Proof.
  intros H. apply classify_alarm in H.
  destruct (alarm_bands_values (dist c) (relativeVertical c)) as [E | [E | [E | E]]];
    rewrite E in H; injection H as -> _; auto.
Qed.

Lemma blank_PFLAU_value :
  blank_PFLAU = "$PFLAU,1,1,2,1,0,,0,,,*4D" +:+ CRLF.
Proof. reflexivity. Qed.

(** The filled sentence differs from the blank one whatever its fields. *)
Lemma populated_not_blank (ti : TrafficInfo) (c : classification) :
  alarmLevel c = 0 \/ alarmLevel c = 1 \/ alarmLevel c = 2 \/ alarmLevel c = 3 ->
  populated_PFLAU cvt_indefinite ti c <> blank_PFLAU.
Proof.
  intros Hl. rewrite blank_PFLAU_value. unfold populated_PFLAU, frame_02X.
  generalize (checksum_of
    ("PFLAU,1,1,2,1," +:+ fmt_d (alarmLevel c) +:+ "," +:+
     fmt_d (int16 cvt_indefinite (relative_bearing ti)) +:+ "," +:+
     fmt_d (alarmType c) +:+ "," +:+ fmt_d (relativeVertical c) +:+ "," +:+
     fmt_d (int16 cvt_indefinite (dist c)) +:+ "," +:+ fmt_X (Icao_addr ti))).
  intros k.
  destruct (fmt_d_head (int16 cvt_indefinite (relative_bearing ti)))
    as (x & s & -> & Hx).
  destruct Hl as [-> | [-> | [-> | ->]]]; simpl; intros [=]; congruence.
Qed.

Lemma sendNetFLARM_inj (w : World) (m1 m2 : string) :
  sendNetFLARM w m1 = sendNetFLARM w m2 -> m1 = m2.
Proof.
  unfold sendNetFLARM. destruct (NetworkFLARM _); simpl; intros [=]; assumption.
Qed.

Lemma sendNetFLARM_not_nil (w : World) (m : string) : sendNetFLARM w m <> [].
Proof. unfold sendNetFLARM. destruct (NetworkFLARM _); discriminate. Qed.

Lemma have_fix_false_rejects (w : World) (ti : TrafficInfo) :
  have_fix w = false -> select_regime w ti = None.
Proof.
  intros Hf. destruct (select_regime w ti) as [r |] eqn:E; [| reflexivity].
  apply select_regime_have_fix in E. congruence.
Qed.

Lemma select_regime_none_rejects (w : World) (ti : TrafficInfo) :
  select_regime w ti = None -> generate w ti = (("", false), []).
Proof.
  intros H. unfold makeFlarmPFLAAString, classify.
  destruct (distRect _ _ _ _) as [[[d b] dn] de]. now rewrite H.
Qed.

(** The PFLAU stage of a classified target: the sentence with the alarm
    fields filled is sent exactly when the alarm level is above 0, the
    ownship has a valid fix of nonzero quality and the target is not in
    the signal-strength mode, and the blank one otherwise. *)
Lemma pflau_after_classification (w : World) (ti : TrafficInfo) :
  (have_fix w = false -> snd (generate w ti) = []) /\
  (forall c, classify' w ti = Some c ->
     (snd (generate w ti) = sendNetFLARM w (populated_PFLAU cvt_indefinite ti c) <->
        0 < alarmLevel c /\ have_fix w = true /\ modec_valid c = false) /\
     (have_fix w = true ->
      ~ (0 < alarmLevel c /\ have_fix w = true /\ modec_valid c = false) ->
        snd (generate w ti) = sendNetFLARM w blank_PFLAU)).
Proof.
  split.
  - intros Hf. now rewrite (select_regime_none_rejects _ _ (have_fix_false_rejects _ ti Hf)).
  - intros c Hc.
    pose proof (classify_have_fix _ _ _ Hc) as Hf.
    pose proof (classify_alarm_level _ _ _ Hc) as Hl.
    assert (Heff : snd (generate w ti) = sendNetFLARM w (PFLAU cvt_indefinite w ti c)).
    { unfold makeFlarmPFLAAString. now rewrite Hc. }
    rewrite Heff. unfold PFLAU. unfold have_fix in Hf.
    apply andb_prop in Hf as [Hg Hq]. rewrite Hg, Hq.
    destruct (Z.ltb_spec 0 (alarmLevel c)) as [Ha | Ha];
      destruct (modec_valid c) eqn:Hm; simpl; (split; [split |]);
      try (intros _; repeat split; (assumption || reflexivity || (unfold have_fix; now rewrite Hg, Hq)));
      try (intros E; apply sendNetFLARM_inj in E; symmetry in E;
           now apply populated_not_blank in E);
      try (intros (H1 & H2 & H3); (lia || discriminate));
      try (intros _ Hn; first [reflexivity | exfalso; apply Hn; repeat split;
             (assumption || unfold have_fix; now rewrite Hg, Hq)]).
Qed.

(** C5 (amended). The full-fix regime is selected exactly when the
    target's altitude is positive, its position and speed are valid, and
    the ownship has a valid fix of nonzero quality.  The track is not
    consulted: whether [Track] is the 0 sentinel changes nothing. *)
Theorem full_fix_regime_selection (w : World) (ti : TrafficInfo) :
  (select_regime w ti = Some FullFix <->
     0 < Alt ti /\ Position_valid ti = true /\ Speed_valid ti = true /\
     have_fix w = true) /\
  (forall ti', Alt ti' = Alt ti -> Position_valid ti' = Position_valid ti ->
     Speed_valid ti' = Speed_valid ti ->
     (select_regime w ti' = Some FullFix <-> select_regime w ti = Some FullFix)).
Proof.
  assert (Hfix : forall t, select_regime w t = Some FullFix <->
            0 < Alt t /\ Position_valid t = true /\ Speed_valid t = true /\
            have_fix w = true).
  { intros t. rewrite select_regime_full_fix. unfold have_fix.
    rewrite andb_true_iff, Z.ltb_lt. tauto. }
  split; [apply Hfix |].
  intros ti' Ha Hp Hs. rewrite !Hfix, Ha, Hp, Hs. tauto.
Qed.

(** C6 (amended). [makeFlarmPFLAAString] is not free of effects.  When it
    returns [valid = true] it has called [sendNetFLARM] once with the PFLAU
    string: one write to the channel [msgchan], preceded by one call of
    [sendMsg] when [NetworkFLARM] is set, both with the same sentence, which
    is the filled or the blank PFLAU.  When it returns [valid = false] it
    has written nothing. *)
Theorem generator_effects (w : World) (ti : TrafficInfo) :
  (snd (fst (generate w ti)) = false -> snd (generate w ti) = []) /\
  (snd (fst (generate w ti)) = true ->
     exists pflau,
       snd (generate w ti) =
         (if NetworkFLARM (globalSettings w) then [SendMsg pflau] else [])
         ++ [ChanSend pflau] /\
       (pflau = blank_PFLAU \/
        exists c, classify' w ti = Some c /\
                  pflau = populated_PFLAU cvt_indefinite ti c)).
Proof.
  unfold makeFlarmPFLAAString.
  destruct (classify' w ti) as [c |] eqn:Hc; simpl; split;
    try discriminate; try reflexivity.
  intros _. exists (PFLAU cvt_indefinite w ti c). split; [reflexivity |].
  pose proof (classify_have_fix _ _ _ Hc) as Hf. unfold have_fix in Hf.
  apply andb_prop in Hf as [Hg Hq]. unfold PFLAU. rewrite Hg, Hq.
  destruct (_ && _); simpl; [right; now exists c | now left].
Qed.


End GeneratorFacts.

(** ** The GPS sentences *)

(** C10. Whenever [isGPSValid()] holds and [GPSFixQuality] is 0,
    [makeGPRMCString] writes status V and mode N and still fills the
    latitude, longitude, speed and course fields: whether these are blank
    follows [isGPSValid()] alone, while the status letter A needs a nonzero
    fix quality as well. *)
Theorem gprmc_valid_without_quality (w : World) :
  isGPSValid w = true ->
  GPSFixQuality (mySituation w) = 0 ->
  let s := mySituation w in
  let lat := fmt_f true 10 5 (fst (deg_min (GPSLatitude s))) in
  let ns := if snd (deg_min (GPSLatitude s)) then "S" else "N" in
  let lng := fmt_f true 11 5 (fst (deg_min (GPSLongitude s))) in
  let ew := if snd (deg_min (GPSLongitude s)) then "W" else "E" in
  let gs := fmt_f false 0 1 (F32.of_Z (GPSGroundSpeed s)) in
  let course := fmt_f false 0 1 (F32.of_Z (GPSTrueCourse s)) in
  makeGPRMCString w =
    frame_X ("GPRMC," +:+ fmt_hms (GPSLastFixSinceMidnightUTC s) +:+ ",V,"
             +:+ lat +:+ "," +:+ ns +:+ "," +:+ lng +:+ "," +:+ ew +:+ ","
             +:+ gs +:+ "," +:+ course +:+ "," +:+ gprmc_date w +:+ ",,,N") /\
  lat <> "" /\ lng <> "" /\ gs <> "" /\ course <> "" /\
  (forall w', gprmc_status w' = "A" <->
              isGPSValid w' = true /\ 0 < GPSFixQuality (mySituation w')) /\
  (forall w', isGPSValid w' = false ->
              gprmc_body w' = "GPRMC,," +:+ gprmc_status w' +:+ ",,,,,,,"
                              +:+ gprmc_date w' +:+ ",,," +:+ gprmc_mode w').
Proof.
  intros Hv Hq. cbv zeta.
  split; [| repeat (split; [apply fmt_f_nonempty |]); split].
  - unfold makeGPRMCString, gprmc_body, gprmc_status, gprmc_mode.
    rewrite Hv, Hq.
    destruct (deg_min (GPSLatitude (mySituation w))) as [lat south].
    destruct (deg_min (GPSLongitude (mySituation w))) as [lng west].
    reflexivity.
  - intros w'. unfold gprmc_status.
    destruct (isGPSValid w');
      destruct (Z.ltb_spec 0 (GPSFixQuality (mySituation w'))); simpl;
      split; try discriminate; try tauto; intros [H1 H2]; (discriminate || lia).
  - intros w' Hn. unfold gprmc_body. rewrite Hn.
    destruct (deg_min (GPSLatitude (mySituation w'))) as [lat south].
    destruct (deg_min (GPSLongitude (mySituation w'))) as [lng west].
    reflexivity.
Qed.

(** ** The registry *)

(** C9. Processing a message from [msgchan] starts one goroutine for every
    client registered at that moment, each sending that message to the
    client's channel, starts none for any other channel, and leaves the
    [clients] map as it was. *)
Theorem broadcast_reaches_registered_clients (clients : gmap conn chan) (msg : string) :
  fst (handle clients (FromMsgchan msg)) = clients /\
  (forall ch m,
     {| to_chan := ch; payload := m |} ∈ snd (handle clients (FromMsgchan msg)) <->
     m = msg /\ exists c, clients !! c = Some ch) /\
  (forall c ch, clients !! c = Some ch ->
     {| to_chan := ch; payload := msg |} ∈ snd (handle clients (FromMsgchan msg))) /\
  length (snd (handle clients (FromMsgchan msg))) = size clients.
Proof.
  simpl. split; [reflexivity |].
  assert (Hiff : forall ch m,
     {| to_chan := ch; payload := m |} ∈
       ((fun kv : conn * chan => {| to_chan := snd kv; payload := msg |})
          <$> map_to_list clients) <->
     m = msg /\ exists c, clients !! c = Some ch).
  { intros ch m. rewrite list_elem_of_fmap. split.
    - intros ([c ch'] & Heq & Hin). simpl in Heq. injection Heq as -> ->.
      apply elem_of_map_to_list in Hin.
      split; [reflexivity | now exists c].
    - intros [-> [c Hc]]. exists (c, ch). split; [reflexivity |].
      now apply elem_of_map_to_list. }
  split; [exact Hiff |]. split.
  - intros c ch Hc. apply Hiff. split; [reflexivity | now exists c].
  - rewrite length_fmap. apply length_map_to_list.
Qed.

(** ** Checksums and framing *)

Lemma lxor_byte (a b : N) : (a < 256 -> b < 256 -> N.lxor a b < 256)%N.
Proof.
  intros Ha Hb.
  destruct (N.eq_dec (N.lxor a b) 0%N) as [-> | Hne]; [lia |].
  change 256%N with (2 ^ 8)%N. apply N.log2_lt_pow2; [lia |].
  eapply N.le_lt_trans; [apply N.log2_lxor |].
  assert (Hl : forall x, (x < 256)%N -> (N.log2 x < 8)%N).
  { intros x Hx. destruct (N.eq_dec x 0%N) as [-> | Hx0]; [reflexivity |].
    apply N.log2_lt_pow2; [lia | exact Hx]. }
  apply N.max_lub_lt; auto.
Qed.

Lemma bytes_bounded (s : string) : Forall (fun b => (b < 256)%N) (bytes s).
Proof.
  unfold bytes. induction s as [| a s IH]; simpl; constructor;
    [apply N_ascii_bounded | exact IH].
Qed.

Lemma Forall_skipn {A} (P : A -> Prop) (n : nat) (l : list A) :
  Forall P l -> Forall P (skipn n l).
Proof.
  revert l. induction n as [| n IH]; intros l H; simpl; [exact H |].
  destruct H; [constructor | now apply IH].
Qed.

Lemma range_xor_byte (fuel : nat) (bs : list N) (acc : N) :
  (acc < 256)%N -> Forall (fun b => (b < 256)%N) bs ->
  (range_xor fuel bs acc < 256)%N.
Proof.
  revert bs acc. induction fuel as [| fuel IH]; intros bs acc Ha Hbs; simpl;
    [exact Ha |].
  destruct bs as [| b tl] eqn:E; [exact Ha |].
  apply IH.
  - apply lxor_byte; [exact Ha | now inversion Hbs].
  - now apply Forall_skipn.
Qed.

(** The checksum always fits a byte. *)
Lemma checksum_of_range (msg : string) : 0 <= checksum_of msg < 256.
Proof.
  unfold checksum_of.
  pose proof (range_xor_byte (String.length msg) (bytes msg) 0%N eq_refl
                (bytes_bounded msg)).
  lia.
Qed.

(** On ASCII text [range] visits every byte. *)
Lemma range_xor_ascii (bs : list N) (fuel : nat) (acc : N) :
  Forall (fun b => (b < 128)%N) bs -> (length bs <= fuel)%nat ->
  range_xor fuel bs acc = fold_left N.lxor bs acc.
Proof.
  intros Hbs. revert fuel acc.
  induction Hbs as [| b tl Hb Htl IH]; intros fuel acc Hlen.
  - now destruct fuel.
  - destruct fuel as [| fuel]; [simpl in Hlen; lia |].
    cbn [range_xor fold_left]. unfold rune_width.
    apply N.ltb_lt in Hb. rewrite Hb. cbn [skipn].
    apply IH. simpl in Hlen. lia.
Qed.

Lemma length_bytes (s : string) : length (bytes s) = String.length s.
Proof.
  unfold bytes. induction s as [| a s IH]; simpl; [reflexivity | now rewrite IH].
Qed.

Lemma checksum_of_ascii (msg : string) :
  is_ascii msg -> checksum_of msg = xor_bytes msg.
Proof.
  intros H. unfold checksum_of, xor_bytes. f_equal.
  apply range_xor_ascii; [exact H | rewrite length_bytes; lia].
Qed.

(** [%02X] of a byte: the high and the low hexadecimal digit. *)
Lemma fmt_02X_byte (z : Z) :
  0 <= z < 256 ->
  fmt_02X z = String (digit_char (Z.to_N z / 16))
                     (String (digit_char (Z.to_N z mod 16)) "").
Proof.
  intros Hz.
  assert (Hall : forallb (fun n =>
            String.eqb (fmt_02X (Z.of_nat n))
              (String (digit_char (Z.to_N (Z.of_nat n) / 16))
                 (String (digit_char (Z.to_N (Z.of_nat n) mod 16)) "")))
            (seq 0 256) = true) by (vm_compute; reflexivity).
  rewrite forallb_forall in Hall.
  specialize (Hall (Z.to_nat z)).
  rewrite Z2Nat.id in Hall by lia.
  apply String.eqb_eq, Hall, in_seq. lia.
Qed.

(** The framing of the PFLAA and PFLAU paths: on an ASCII body the checksum
    field holds the XOR of all bytes of the body as two hexadecimal digits. *)
Lemma frame_02X_ascii (msg : string) :
  is_ascii msg ->
  exists hi lo : N,
    (hi < 16)%N /\ (lo < 16)%N /\ Z.of_N (16 * hi + lo) = xor_bytes msg /\
    frame_02X msg =
      "$" +:+ msg +:+ "*" +:+ String (digit_char hi) (String (digit_char lo) "")
      +:+ CRLF.
Proof.
  intros Ha. pose proof (checksum_of_range msg) as Hr.
  exists (Z.to_N (checksum_of msg) / 16)%N, (Z.to_N (checksum_of msg) mod 16)%N.
  repeat split.
  - apply N.Div0.div_lt_upper_bound. lia.
  - apply N.mod_upper_bound. lia.
  - rewrite <- (checksum_of_ascii _ Ha).
    rewrite <- N.div_mod by lia. lia.
  - unfold frame_02X. now rewrite (fmt_02X_byte _ Hr).
Qed.

(** The framing of the GPRMC and GPGGA paths writes a checksum below 16 as a
    single digit. *)
Lemma frame_X_small (msg : string) :
  0 <= checksum_of msg < 16 ->
  frame_X msg =
    "$" +:+ msg +:+ "*" +:+ String (digit_char (Z.to_N (checksum_of msg))) "" +:+ CRLF.
Proof.
  intros Hc. unfold frame_X. f_equal. f_equal. f_equal. f_equal.
  assert (Hall : forallb (fun n =>
            String.eqb (fmt_X (Z.of_nat n))
              (String (digit_char (Z.to_N (Z.of_nat n))) ""))
            (seq 0 16) = true) by (vm_compute; reflexivity).
  rewrite forallb_forall in Hall.
  specialize (Hall (Z.to_nat (checksum_of msg))).
  rewrite Z2Nat.id in Hall by lia.
  apply String.eqb_eq, Hall, in_seq. lia.
Qed.

(** From 16 on both framings agree. *)
Lemma frame_X_large (msg : string) :
  16 <= checksum_of msg -> frame_X msg = frame_02X msg.
Proof.
  intros Hc. pose proof (checksum_of_range msg) as Hr.
  unfold frame_X, frame_02X. do 4 f_equal.
  assert (Hall : forallb (fun n =>
            String.eqb (fmt_X (Z.of_nat n)) (fmt_02X (Z.of_nat n)))
            (seq 16 240) = true) by (vm_compute; reflexivity).
  rewrite forallb_forall in Hall.
  specialize (Hall (Z.to_nat (checksum_of msg))).
  rewrite Z2Nat.id in Hall by lia.
  apply String.eqb_eq, Hall, in_seq. lia.
Qed.

(** *** The generated text is ASCII *)

Lemma bytes_append (a b : string) : bytes (a +:+ b) = bytes a ++ bytes b.
Proof.
  unfold bytes. induction a as [| x a IH]; simpl; [reflexivity | now rewrite IH].
Qed.

Lemma is_ascii_append (a b : string) :
  is_ascii a -> is_ascii b -> is_ascii (a +:+ b).
Proof.
  unfold is_ascii. rewrite bytes_append. intros Ha Hb.
  apply Forall_app. now split.
Qed.

Lemma is_ascii_cons (c : ascii) (s : string) :
  (N_of_ascii c < 128)%N -> is_ascii s -> is_ascii (String c s).
Proof. intros Hc Hs. unfold is_ascii, bytes. simpl. now constructor. Qed.

Lemma is_ascii_nil : is_ascii "".
Proof. constructor. Qed.

Lemma digit_char_ascii (base d : N) :
  (0 < base <= 16)%N -> (N_of_ascii (digit_char (d mod base)) < 128)%N.
Proof.
  intros Hb.
  assert (Hd : (d mod base < 16)%N).
  { pose proof (N.mod_upper_bound d base). lia. }
  pose proof (digit_char_code _ Hd). lia.
Qed.

Lemma digits_go_ascii (fuel : nat) (base n : N) (acc : string) :
  (0 < base <= 16)%N -> is_ascii acc -> is_ascii (digits_go fuel base n acc).
Proof.
  intros Hb. revert n acc. induction fuel as [| fuel IH]; intros n acc Ha; simpl;
    [exact Ha |].
  assert (Ha' : is_ascii (String (digit_char (n mod base)) acc))
    by (apply is_ascii_cons; [now apply digit_char_ascii | exact Ha]).
  destruct (n / base =? 0)%N; [exact Ha' | now apply IH].
Qed.

Lemma digits_ascii (base n : N) : (0 < base <= 16)%N -> is_ascii (digits base n).
Proof. intros Hb. apply digits_go_ascii; [exact Hb | apply is_ascii_nil]. Qed.

Lemma repeat_char_ascii (c : ascii) (n : nat) :
  (N_of_ascii c < 128)%N -> is_ascii (repeat_char c n).
Proof.
  intros Hc. induction n as [| n IH]; simpl;
    [apply is_ascii_nil | now apply is_ascii_cons].
Qed.

Lemma pad_left_ascii (c : ascii) (wid : nat) (s : string) :
  (N_of_ascii c < 128)%N -> is_ascii s -> is_ascii (pad_left c wid s).
Proof.
  intros Hc Hs. unfold pad_left.
  apply is_ascii_append; [now apply repeat_char_ascii | exact Hs].
Qed.

Lemma fmt_d_ascii (z : Z) : is_ascii (fmt_d z).
Proof.
  unfold fmt_d. destruct (z <? 0).
  - apply is_ascii_append; [repeat constructor | apply digits_ascii; lia].
  - apply digits_ascii. lia.
Qed.

Lemma fmt_0d_ascii (wid : nat) (z : Z) : is_ascii (fmt_0d wid z).
Proof.
  unfold fmt_0d. destruct (z <? 0).
  - apply is_ascii_append; [repeat constructor |].
    apply pad_left_ascii; [reflexivity | apply digits_ascii; lia].
  - apply pad_left_ascii; [reflexivity | apply digits_ascii; lia].
Qed.

Lemma fmt_X_ascii (z : Z) : is_ascii (fmt_X z).
Proof. apply digits_ascii. lia. Qed.

Lemma fixed_digits_ascii (p : nat) (x : spec_float) : is_ascii (fixed_digits p x).
Proof.
  unfold fixed_digits. destruct p as [| p].
  - apply digits_ascii. lia.
  - apply is_ascii_append; [apply digits_ascii; lia |].
    apply is_ascii_append; [repeat constructor |].
    apply pad_left_ascii; [reflexivity | apply digits_ascii; lia].
Qed.

Lemma fmt_f_ascii (zero : bool) (wid p : nat) (x : spec_float) :
  is_ascii (fmt_f zero wid p x).
Proof.
  pose proof (fixed_digits_ascii p x) as Hd.
  assert (Hminus : is_ascii "-") by repeat constructor.
  unfold fmt_f. destruct x as [s | s | | s m e]; cbn [Float.sign].
  - destruct s; [destruct zero |].
    + apply is_ascii_append; [exact Hminus | now apply pad_left_ascii].
    + apply pad_left_ascii; [reflexivity | now apply is_ascii_append].
    + destruct zero; now apply pad_left_ascii.
  - apply pad_left_ascii; [reflexivity | destruct s; repeat constructor].
  - apply pad_left_ascii; [reflexivity | repeat constructor].
  - destruct s; [destruct zero |].
    + apply is_ascii_append; [exact Hminus | now apply pad_left_ascii].
    + apply pad_left_ascii; [reflexivity | now apply is_ascii_append].
    + destruct zero; now apply pad_left_ascii.
Qed.

(** Splits an [is_ascii] goal along the appends of the text and closes the
    pieces that are literals, printed numbers or hypotheses. *)
Ltac ascii_text :=
  repeat lazymatch goal with
  | |- is_ascii (String.append _ _) => apply is_ascii_append
  | |- is_ascii (String _ _) => apply is_ascii_cons; [reflexivity |]
  | |- is_ascii EmptyString => apply is_ascii_nil
  | |- is_ascii (fmt_d _) => apply fmt_d_ascii
  | |- is_ascii (Itoa _) => apply fmt_d_ascii
  | |- is_ascii (fmt_0d _ _) => apply fmt_0d_ascii
  | |- is_ascii (fmt_X _) => apply fmt_X_ascii
  | |- is_ascii (fmt_f _ _ _ _) => apply fmt_f_ascii
  | |- is_ascii (if _ then _ else _) => assumption
  | |- is_ascii _ => assumption
  end.

(** The framing of the PFLAU sentence is right for every input: the field
    after the star holds the XOR of all bytes of the body in two digits. *)
Lemma populated_PFLAU_checksum (cvt : spec_float -> Z) (ti : TrafficInfo)
    (c : classification) :
  exists (body : string) (hi lo : N),
    (hi < 16)%N /\ (lo < 16)%N /\ Z.of_N (16 * hi + lo) = xor_bytes body /\
    populated_PFLAU cvt ti c =
      "$" +:+ body +:+ "*" +:+ String (digit_char hi) (String (digit_char lo) "")
      +:+ CRLF.
Proof.
  unfold populated_PFLAU.
  match goal with |- context [frame_02X ?b] => set (body := b) end.
  assert (Ha : is_ascii body).
  { unfold body.
    ascii_text. }
  destruct (frame_02X_ascii body Ha) as (hi & lo & H1 & H2 & H3 & H4).
  exists body, hi, lo. repeat split; assumption.
Qed.

Section AsciiBodies.
Variable cvt_indefinite : spec_float -> Z.
Variable distRect : float64 -> float64 -> float64 -> float64 ->
                    float64 * float64 * float64 * float64.

Lemma classify_fields_ascii (w : World) (ti : TrafficInfo) (c : classification) :
  classify cvt_indefinite distRect w ti = Some c ->
  is_ascii (rEast c) /\ is_ascii (track c).
Proof.
  unfold classify.
  destruct (distRect _ _ _ _) as [[[d b] dn] de].
  destruct (select_regime w ti) as [[|]|]; [| | discriminate].
  - simpl. destruct (alarm_bands _ _). intros [= <-]. simpl.
    split; apply fmt_d_ascii.
  - destruct (signal_range _ =? 0); [discriminate |].
    destruct (_ && _); [discriminate |].
    destruct (alarm_bands _ _). intros [= <-]. simpl.
    split; apply is_ascii_nil.
Qed.

(** The framing of the PFLAA sentence is right whenever the callsign is
    ASCII. *)
Lemma PFLAA_checksum (w : World) (ti : TrafficInfo) (c : classification) :
  classify cvt_indefinite distRect w ti = Some c ->
  is_ascii (Tail ti) ->
  exists (body : string) (hi lo : N),
    (hi < 16)%N /\ (lo < 16)%N /\ Z.of_N (16 * hi + lo) = xor_bytes body /\
    PFLAA cvt_indefinite ti c =
      "$" +:+ body +:+ "*" +:+ String (digit_char hi) (String (digit_char lo) "")
      +:+ CRLF.
Proof.
  intros Hc Ht. destruct (classify_fields_ascii _ _ _ Hc) as [He Hk].
  unfold PFLAA.
  destruct (if Speed_valid ti then _ else _) as [gSpeed cRate] eqn:Eg.
  assert (Hg : is_ascii gSpeed /\ is_ascii cRate).
  { destruct (Speed_valid ti); injection Eg as <- <-; split; ascii_text. }
  destruct Hg as [Hg1 Hg2].
  match goal with |- context [frame_02X ?b] => set (body := b) end.
  assert (Ha : is_ascii body).
  { unfold body.
    ascii_text. }
  destruct (frame_02X_ascii body Ha) as (hi & lo & H1 & H2 & H3 & H4).
  exists body, hi, lo. repeat split; assumption.
Qed.

End AsciiBodies.

(** The bodies of the GPS sentences are ASCII, so their checksum is the
    XOR of all bytes; only the number of digits can go wrong. *)
Lemma gps_bodies_ascii (w : World) :
  is_ascii (gprmc_body w) /\ is_ascii (gpgga_body w).
Proof.
  assert (Hhms : forall t, is_ascii (fmt_hms t)).
  { intros t. unfold fmt_hms. destruct (utc_hms t) as [[hr mins] sec].
    ascii_text. }
  assert (Hdate : is_ascii (gprmc_date w)).
  { unfold gprmc_date. destruct (utcDate w) as [[yy mm] dd].
    ascii_text. }
  assert (Hst : is_ascii (gprmc_status w)).
  { unfold gprmc_status. destruct (_ && _); ascii_text. }
  assert (Hmode : is_ascii (gprmc_mode w)).
  { unfold gprmc_mode. repeat (destruct (_ =? _); [ascii_text |]). ascii_text. }
  unfold gprmc_body, gpgga_body.
  destruct (deg_min (GPSLatitude (mySituation w))) as [lat south].
  destruct (deg_min (GPSLongitude (mySituation w))) as [lng west].
  assert (Hns : is_ascii (if south then "S" else "N")) by (destruct south; ascii_text).
  assert (Hew : is_ascii (if west then "W" else "E")) by (destruct west; ascii_text).
  pose proof (Hhms (GPSLastFixSinceMidnightUTC (mySituation w))) as Ht.
  split; destruct (isGPSValid w); ascii_text.
Qed.

(** C1. The GPRMC and GPGGA framing drops the leading zero of the checksum.
    With a fix whose latitude is not a number the XOR of either body is 3,
    and the sentences end in [*3], one digit, where the PFLAA and PFLAU
    paths would write [*03]. *)
Theorem gps_sentences_one_digit_checksum :
  xor_bytes (gprmc_body Sample.world_nan) = 3 /\
  makeGPRMCString Sample.world_nan =
    "$GPRMC,123519.00,A,       NaN,N,00800.00000,E,22.0,84.0,230318,,,A*3" +:+ CRLF /\
  xor_bytes (gpgga_body Sample.world_nan) = 3 /\
  makeGPGGAString Sample.world_nan =
    "$GPGGA,123519.00,       NaN,N,00800.00000,E,1,10,1.00,762.0,M,45.7,M,,*3" +:+ CRLF /\
  frame_02X (gprmc_body Sample.world_nan) =
    "$GPRMC,123519.00,A,       NaN,N,00800.00000,E,22.0,84.0,230318,,,A*03" +:+ CRLF.
Proof. vm_compute. repeat split; reflexivity. Qed.

(** The checksum loop steps over runes: of a callsign outside ASCII only
    the first byte of every character enters the checksum. *)
Lemma checksum_skips_continuation_bytes :
  checksum_of Sample.tail_non_ascii = 168 /\ xor_bytes Sample.tail_non_ascii = 33.
Proof. vm_compute. split; reflexivity. Qed.

(** ** Conversions to 16-bit integers *)

Lemma int16_of_float_in_int32 (cvt : spec_float -> Z) (f : spec_float) (z : Z) :
  Float.trunc f = Some z -> in_int32 z = true ->
  int16_of_float cvt f = wrap_int16 z.
Proof. intros Ht Hz. unfold int16_of_float. now rewrite Ht, Hz. Qed.

Lemma wrap_int16_in_range (z : Z) : in_int16 z = true -> wrap_int16 z = z.
Proof.
  unfold in_int16, wrap_int16. intros H.
  apply andb_prop in H as [H1 H2]. apply Z.leb_le in H1, H2.
  rewrite Z.mod_small; lia.
Qed.

Lemma wrap_int16_range (z : Z) : -32768 <= wrap_int16 z <= 32767.
Proof. unfold wrap_int16. pose proof (Z.mod_pos_bound (z + 32768) 65536). lia. Qed.

(** A bearing that is neither above 180 nor below -180 leaves
    [relativeBearing] at zero. *)
Lemma relative_bearing_in_range (ti : TrafficInfo) :
  Float.gt (Bearing ti) (F64.of_Z 180) = false ->
  Float.lt (Bearing ti) (F64.of_Z (-180)) = false ->
  relative_bearing ti = S754_zero false.
Proof. intros H1 H2. unfold relative_bearing. now rewrite H1, H2. Qed.

(** Whatever the alarm, an in-range bearing is written as 0. *)
Lemma populated_PFLAU_in_range (cvt : spec_float -> Z) (ti : TrafficInfo)
    (c : classification) :
  Float.gt (Bearing ti) (F64.of_Z 180) = false ->
  Float.lt (Bearing ti) (F64.of_Z (-180)) = false ->
  populated_PFLAU cvt ti c =
    frame_02X ("PFLAU,1,1,2,1," +:+ fmt_d (alarmLevel c) +:+ ",0,"
               +:+ fmt_d (alarmType c) +:+ "," +:+ fmt_d (relativeVertical c)
               +:+ "," +:+ fmt_d (int16 cvt (dist c)) +:+ "," +:+ fmt_X (Icao_addr ti)).
Proof.
  intros H1 H2. unfold populated_PFLAU.
  rewrite (relative_bearing_in_range _ H1 H2). reflexivity.
Qed.

(** Under the full-fix regime the offsets are the converted results of
    [distRect], and a north offset whose integer part fits 32 bits is taken
    modulo 2^16. *)
Lemma full_fix_offsets (cvt : spec_float -> Z)
    (distRect : float64 -> float64 -> float64 -> float64 ->
                float64 * float64 * float64 * float64)
    (w : World) (ti : TrafficInfo) (c : classification) (d b dn de : float64) :
  distRect (F64.of_f32 (GPSLatitude (mySituation w)))
           (F64.of_f32 (GPSLongitude (mySituation w)))
           (F64.of_f32 (Lat ti)) (F64.of_f32 (Lng ti)) = (d, b, dn, de) ->
  select_regime w ti = Some FullFix ->
  classify cvt distRect w ti = Some c ->
  relativeNorth c = int16 cvt dn /\ rEast c = Itoa (int16 cvt de) /\
  track c = Itoa (Track ti) /\ dist c = d /\ modec_valid c = false.
Proof.
  intros Hr Hs. unfold classify. rewrite Hr, Hs. simpl.
  destruct (alarm_bands _ _). intros [= <-]. simpl. auto.
Qed.

Lemma full_fix_north_wraps (cvt : spec_float -> Z)
    (distRect : float64 -> float64 -> float64 -> float64 ->
                float64 * float64 * float64 * float64)
    (w : World) (ti : TrafficInfo) (c : classification) (d b dn de : float64) (z : Z) :
  distRect (F64.of_f32 (GPSLatitude (mySituation w)))
           (F64.of_f32 (GPSLongitude (mySituation w)))
           (F64.of_f32 (Lat ti)) (F64.of_f32 (Lng ti)) = (d, b, dn, de) ->
  select_regime w ti = Some FullFix ->
  classify cvt distRect w ti = Some c ->
  Float.trunc dn = Some z -> in_int32 z = true ->
  relativeNorth c = wrap_int16 z /\
  (in_int16 z = true -> relativeNorth c = z) /\
  (32767 < z -> relativeNorth c <> 32767 -> relativeNorth c <> Z.min z 32767).
Proof.
  intros Hr Hs Hc Ht Hz.
  destruct (full_fix_offsets _ _ _ _ _ _ _ _ _ Hr Hs Hc) as (Hn & _).
  unfold int16 in Hn. rewrite (int16_of_float_in_int32 _ _ _ Ht Hz) in Hn.
  split; [exact Hn |]. split.
  - intros Hi. now rewrite Hn, wrap_int16_in_range.
  - intros Hbig Hne. rewrite Z.min_r by lia. exact Hne.
Qed.

(** C2. A target bearing 90 degrees, inside the range, under an alarm of
    level 3: the bearing field of the PFLAU is 0, not 90. *)
Theorem bearing_within_range_emitted_as_zero :
  Bearing Sample.target = F64.of_Z 90 /\
  relative_bearing Sample.target = S754_zero false /\
  snd (makeFlarmPFLAAString Sample.cvt (Sample.rect 3000 90 100 3000)
         Sample.world Sample.target) =
    [SendMsg ("$PFLAU,1,1,2,1,3,0,2,182,3000,A5F2EE*44" +:+ CRLF);
     ChanSend ("$PFLAU,1,1,2,1,3,0,2,182,3000,A5F2EE*44" +:+ CRLF)].
Proof. vm_compute. repeat split; reflexivity. Qed.

(** C3. A target 40000 m to the north under the full-fix regime: the
    relative-north field is -25536, which is 40000 - 65536, not 32767. *)
Theorem north_offset_beyond_range_wraps :
  select_regime Sample.world Sample.target = Some FullFix /\
  fst (makeFlarmPFLAAString Sample.cvt (Sample.rect 40000 0 40000 0)
         Sample.world Sample.target) =
    ("$PFLAA,0,-25536,0,182,1,A5F2EE!HBABC,136,,61,-3.3,8*05" +:+ CRLF, true).
Proof. vm_compute. split; reflexivity. Qed.

(** ** Closed instances *)

(** A classification without an alarm: the blank PFLAU. *)
Lemma blank_pflau_example :
  snd (makeFlarmPFLAAString Sample.cvt (Sample.rect 40000 0 40000 0)
         Sample.world Sample.target) =
    [SendMsg blank_PFLAU; ChanSend blank_PFLAU].
Proof. vm_compute. reflexivity. Qed.

(** C5, counterexample: a target with valid position and speed whose track
    is the 0 sentinel is classified under the full-fix regime, and its PFLAA
    carries track 0. *)
Lemma track_sentinel_is_full_fix :
  Track Sample.target_track0 = 0 /\
  Position_valid Sample.target_track0 = true /\
  Speed_valid Sample.target_track0 = true /\
  select_regime Sample.world Sample.target_track0 = Some FullFix /\
  fst (makeFlarmPFLAAString Sample.cvt (Sample.rect 3000 90 100 3000)
         Sample.world Sample.target_track0) =
    ("$PFLAA,3,100,3000,182,1,A5F2EE!HBABC,0,,61,-3.3,8*1A" +:+ CRLF, true).
Proof. vm_compute. repeat split; reflexivity. Qed.

(** C6, counterexample: one call writes the PFLAU sentence to the network
    and to the channel. *)
Lemma generator_writes_to_channel :
  snd (makeFlarmPFLAAString Sample.cvt (Sample.rect 3000 90 100 3000)
         Sample.world Sample.target) <> [] /\
  In (ChanSend ("$PFLAU,1,1,2,1,3,0,2,182,3000,A5F2EE*44" +:+ CRLF))
     (snd (makeFlarmPFLAAString Sample.cvt (Sample.rect 3000 90 100 3000)
             Sample.world Sample.target)).
Proof. vm_compute. split; [discriminate | right; left; reflexivity]. Qed.


(** C10 at a fix of quality 0. *)
Lemma gprmc_valid_without_quality_witness :
  isGPSValid Sample.world_quality0 = true /\
  GPSFixQuality (mySituation Sample.world_quality0) = 0 /\
  makeGPRMCString Sample.world_quality0 =
    "$GPRMC,123519.00,V,4700.00000,N,00800.00000,E,22.0,84.0,230318,,,N*47" +:+ CRLF.
Proof.
  split; [reflexivity | split; [reflexivity |]].
  rewrite (proj1 (gprmc_valid_without_quality Sample.world_quality0 eq_refl eq_refl)).
  vm_compute. reflexivity.
Defined.

(** ** Feet to meters *)

(** The two constants as float32 values. *)
Lemma conversion_constants :
  F32.const 3048 10000 = S754_finite false 10227391 (-25) /\
  F32.const 328084 100000 = S754_finite false 13760840 (-22).
Proof. vm_compute. split; reflexivity. Qed.

(** C7, counterexample: 27573 ft is 8404.251 m by the factor 0.3048 of the
    PFLAA path and 8404.25 m by the divisor 3.28084 of the GPGGA path; to one
    decimal they print differently, and the GPGGA sentence of an ownship at
    that altitude carries 8404.2. *)
Lemma feet_conversions_disagree :
  feet_to_meters (F32.of_Z 27573) = S754_finite false 8605953 (-10) /\
  gga_meters (F32.of_Z 27573) = S754_finite false 8605952 (-10) /\
  fmt_f false 0 1 (feet_to_meters (F32.of_Z 27573)) = "8404.3" /\
  fmt_f false 0 1 (gga_meters (F32.of_Z 27573)) = "8404.2" /\
  makeGPGGAString Sample.world_high =
    "$GPGGA,123519.00,4700.00000,N,00800.00000,E,1,9,1.00,8404.2,M,45.7,M,,*5E" +:+ CRLF.
Proof. vm_compute. repeat split; reflexivity. Qed.

(** C7 (amended). The PFLAA path converts feet to meters by multiplying
    with the float32 constant 0.3048, for the relative vertical offset (both
    altitudes) and for the climb rate; the GPGGA path converts by dividing by
    the float32 constant 3.28084, for the altitude and for the geoid
    separation.  Within each path equal values in feet give equal values in
    meters. *)
Theorem feet_conversion_by_path (cvt : spec_float -> Z) (w : World)
    (ti : TrafficInfo) (vvel : Z) :
  relative_vertical cvt w ti =
    int16 cvt (F32.sub (feet_to_meters (F32.of_Z (Alt ti)))
                       (feet_to_meters (own_altitude w ti))) /\
  climb_rate vvel =
    limit_climb (F32.div (feet_to_meters (F32.of_Z vvel)) (F32.of_Z 60)) /\
  (exists head : string,
     gpgga_body w =
       if isGPSValid w then
         head +:+ ","
         +:+ fmt_f false 0 1 (gga_meters (GPSAltitudeMSL (mySituation w))) +:+ ",M,"
         +:+ fmt_f false 0 1 (gga_meters (GPSGeoidSep (mySituation w))) +:+ ",M,,"
       else "GPTXT,No valid Stratux GPS position") /\
  (forall feet : float32,
     feet_to_meters feet = F32.mul feet (S754_finite false 10227391 (-25)) /\
     gga_meters feet = F32.div feet (S754_finite false 13760840 (-22))).
Proof.
  split; [reflexivity |]. split; [reflexivity |]. split.
  - unfold gpgga_body.
    destruct (deg_min (GPSLatitude (mySituation w))) as [lat south].
    destruct (deg_min (GPSLongitude (mySituation w))) as [lng west].
    destruct (isGPSValid w); [| now exists ""].
    eexists.
    repeat rewrite <- append_assoc. reflexivity.
  - intros feet. unfold feet_to_meters, gga_meters.
    destruct conversion_constants as [-> ->]. split; reflexivity.
Qed.

(** ** Scenarios *)

(** A target 500 m due north at the ownship's level: alarm level 3, type 2,
    relative north 500 and east 0. *)
Example scenario_due_north :
  makeFlarmPFLAAString Sample.cvt (Sample.rect 500 0 500 0)
    Sample.world Sample.target_level =
  (("$PFLAA,3,500,0,0,1,A5F2EE!HBABC,136,,61,-3.3,8*22" +:+ CRLF, true),
   [SendMsg ("$PFLAU,1,1,2,1,3,0,2,0,500,A5F2EE*79" +:+ CRLF);
    ChanSend ("$PFLAU,1,1,2,1,3,0,2,0,500,A5F2EE*79" +:+ CRLF)]).
Proof. vm_compute. reflexivity. Qed.

(** A target without position, speed and track, heard at -3 dB: relative
    north 463, the east, track, speed and climb fields blank, and the blank
    PFLAU although the alarm level is 3. *)
Example scenario_signal_strength :
  makeFlarmPFLAAString Sample.cvt (Sample.rect 500 0 500 0)
    Sample.world Sample.target_mode_c =
  (("$PFLAA,3,463,,182,1,A5F2EE!HBABC,,,,,8*2D" +:+ CRLF, true),
   [SendMsg blank_PFLAU; ChanSend blank_PFLAU]).
Proof. vm_compute. reflexivity. Qed.

(** Without a valid fix: GPRMC with blank position, speed and course, the
    date and the mode filled; the text sentence in place of GPGGA; and no
    traffic sentence. *)
Example scenario_no_fix :
  makeGPRMCString Sample.world_no_fix = "$GPRMC,,V,,,,,,,230318,,,A*57" +:+ CRLF /\
  makeGPGGAString Sample.world_no_fix =
    "$GPTXT,No valid Stratux GPS position*24" +:+ CRLF /\
  makeFlarmPFLAAString Sample.cvt (Sample.rect 500 0 500 0)
    Sample.world_no_fix Sample.target = (("", false), []).
Proof. vm_compute. repeat split; reflexivity. Qed.

(** A bearing beyond 180 degrees is wrapped: 200 becomes -160. *)
Example scenario_bearing_wrapped :
  snd (makeFlarmPFLAAString Sample.cvt (Sample.rect 3000 200 (-2800) (-1000))
         Sample.world Sample.target_bearing200) =
    [SendMsg ("$PFLAU,1,1,2,1,3,-160,2,182,3000,A5F2EE*6E" +:+ CRLF);
     ChanSend ("$PFLAU,1,1,2,1,3,-160,2,182,3000,A5F2EE*6E" +:+ CRLF)].
Proof. vm_compute. reflexivity. Qed.

(** The verbs on known values. *)
Example fmt_examples :
  fmt_f true 10 5 (F64.of_f32 (F32.const 4807038 100000)) = "0048.07038" /\
  fmt_f true 5 2 (F64.of_Z 7) = "07.00" /\
  fmt_f true 2 0 (F64.div (F64.of_Z 5) (F64.of_Z 2)) = "02" /\
  fmt_f false 0 1 (F32.const (-5) 100) = "-0.1" /\
  fmt_f false 0 1 (F32.const (-4) 100) = "-0.0" /\
  fmt_f true 10 5 S754_nan = "       NaN" /\
  fmt_f false 0 1 (S754_infinity false) = "+Inf" /\
  fmt_d (-120) = "-120" /\ fmt_0d 2 7 = "07" /\
  fmt_X 10875630 = "A5F2EE" /\ fmt_02X 10 = "0A" /\ fmt_X 10 = "A".
Proof. vm_compute. repeat split; reflexivity. Qed.

(** The loop handles the events one after the other: the last event meets
    the map that the events before it have built. *)
Lemma handleMessages_from_snoc (clients : gmap conn chan) (rs : list received)
    (r : received) :
  handleMessages_from clients (rs ++ [r]) =
    (fst (handle (fst (handleMessages_from clients rs)) r),
     snd (handleMessages_from clients rs)
     ++ snd (handle (fst (handleMessages_from clients rs)) r)).
Proof.
  revert clients. induction rs as [| r0 rs IH]; intros clients; simpl.
  - destruct (handle clients r) as [c d]. simpl. now rewrite app_nil_r.
  - destruct (handle clients r0) as [c0 d0]. rewrite IH.
    destruct (handleMessages_from c0 rs) as [c1 d1]. simpl.
    now rewrite app_assoc.
Qed.

(** Three clients register, one leaves, a sentence is published: the two
    remaining channels get it, the third does not. *)
Example scenario_three_clients :
  let a := {| client_conn := 1; client_ch := 11 |}%positive in
  let b := {| client_conn := 2; client_ch := 12 |}%positive in
  let c := {| client_conn := 3; client_ch := 13 |}%positive in
  let run := handleMessages
               [FromAddchan a; FromAddchan b; FromAddchan c; FromRmchan b;
                FromMsgchan "$PFLAU,1,1,2,1,0,,0,,,*4D"] in
  {| to_chan := 11; payload := "$PFLAU,1,1,2,1,0,,0,,,*4D" |}%positive ∈ snd run /\
  {| to_chan := 13; payload := "$PFLAU,1,1,2,1,0,,0,,,*4D" |}%positive ∈ snd run /\
  length (snd run) = 2%nat /\
  fst run !! 2%positive = None.
Proof.
  cbv zeta. vm_compute handleMessages.
  repeat split; try reflexivity; repeat constructor.
Qed.

(** * Further properties of the generators *)

(** ** The order of floating-point numbers *)

Lemma lt_trans (x y z : spec_float) :
  Float.lt x y = true -> Float.lt y z = true -> Float.lt x z = true.
Proof.
  unfold Float.lt, SFltb.
  destruct x as [sx | sx | | sx mx ex], y as [sy | sy | | sy my ey],
    z as [sz | sz | | sz mz ez]; simpl;
    try discriminate; try reflexivity;
    try (destruct sx; simpl; try discriminate; try reflexivity;
         destruct sy; simpl; try discriminate; try reflexivity;
         destruct sz; simpl; try discriminate; reflexivity);
    try (destruct sx, sy; simpl; try discriminate; reflexivity);
    try (destruct sx, sz; simpl; try discriminate; reflexivity);
    try (destruct sy, sz; simpl; try discriminate; reflexivity).
  all: destruct sx, sy, sz; simpl; try discriminate; try reflexivity.
  all: change (Pos.compare_cont Eq) with Pos.compare.
  all: destruct (Z.compare_spec ex ey), (Z.compare_spec ey ez), (Z.compare_spec ex ez);
       try lia; try discriminate; try reflexivity.
  all: destruct (Pos.compare_spec mx my), (Pos.compare_spec my mz), (Pos.compare_spec mx mz);
       simpl; try lia; try discriminate; try reflexivity.
Qed.

Lemma lt_irrefl (x : spec_float) : Float.lt x x = false.
Proof.
  unfold Float.lt, SFltb.
  destruct x as [s | s | | s m e]; simpl; try reflexivity.
  - now destruct s.
  - change (Pos.compare_cont Eq) with Pos.compare.
    destruct s; rewrite Z.compare_refl, Pos.compare_refl; reflexivity.
Qed.

Lemma lt_asym (x y : spec_float) : Float.lt x y = true -> Float.lt y x = false.
Proof.
  intros H. destruct (Float.lt y x) eqn:E; [| reflexivity].
  pose proof (lt_trans _ _ _ H E) as Hxx. rewrite lt_irrefl in Hxx. discriminate.
Qed.

(** ** The alarm bands (lines 220-235) *)

(** X1. Alarm levels never decrease with proximity: of two distances at the
    same vertical offset, the smaller one gets at least the level of the
    larger one. *)
Theorem alarm_level_monotone (d1 d2 : float64) (v : Z) :
  Float.lt d1 d2 = true ->
  fst (alarm_bands d2 v) <= fst (alarm_bands d1 v).
Proof.
  intros Hlt. unfold alarm_bands.
  destruct (InBetween v (-304) 304); rewrite ?andb_false_r, ?andb_true_r;
    [| simpl; lia].
  assert (Hk : forall k, Float.lt d2 k = true -> Float.lt d1 k = true)
    by (intros k; apply lt_trans; exact Hlt).
  destruct (Float.lt d2 (F64.of_Z 926)) eqn:E1; [rewrite (Hk _ E1); simpl; lia |].
  destruct (Float.lt d2 (F64.of_Z 4000)) eqn:E2.
  { rewrite (Hk _ E2). destruct (Float.lt d1 (F64.of_Z 926)); simpl; lia. }
  destruct (Float.lt d2 (F64.of_Z 8000)) eqn:E3.
  { rewrite (Hk _ E3).
    destruct (Float.lt d1 (F64.of_Z 926)), (Float.lt d1 (F64.of_Z 4000)); simpl; lia. }
  destruct (Float.lt d2 (F64.of_Z 12000)) eqn:E4.
  { rewrite (Hk _ E4).
    destruct (Float.lt d1 (F64.of_Z 926)), (Float.lt d1 (F64.of_Z 4000)),
      (Float.lt d1 (F64.of_Z 8000)); simpl; lia. }
  destruct (Float.lt d1 (F64.of_Z 926)), (Float.lt d1 (F64.of_Z 4000)),
    (Float.lt d1 (F64.of_Z 8000)), (Float.lt d1 (F64.of_Z 12000)); simpl; lia.
Qed.

Lemma alarm_level_monotone_witness :
  Float.lt (F64.of_Z 3000) (F64.of_Z 9000) = true /\
  fst (alarm_bands (F64.of_Z 9000) 100) <= fst (alarm_bands (F64.of_Z 3000) 100).
Proof.
  split; [reflexivity |].
  apply (alarm_level_monotone (F64.of_Z 3000) (F64.of_Z 9000) 100). reflexivity.
Defined.

(** X2. The bands as one table.  Level 3 is given exactly below 4000 m
    within +/-304 m (the 926 m band adds nothing), level 2 from there to
    below 8000 m, level 1 to below 12000 m; outside the vertical band, at
    12000 m or more, or for a distance that is not a number the level is 0.
    The alarm type is 2 exactly when the level is above 0. *)
Theorem alarm_bands_table (d : float64) (v : Z) :
  let in_band := InBetween v (-304) 304 in
  alarm_bands d v =
    (if in_band && Float.lt d (F64.of_Z 4000) then (3, 2)
     else if in_band && Float.lt d (F64.of_Z 8000) then (2, 2)
     else if in_band && Float.lt d (F64.of_Z 12000) then (1, 2)
     else (0, 0)) /\
  (snd (alarm_bands d v) = 2 <-> 0 < fst (alarm_bands d v)) /\
  (in_band = false -> alarm_bands d v = (0, 0)) /\
  (d = S754_nan -> alarm_bands d v = (0, 0)).
Proof.
  cbv zeta. unfold alarm_bands.
  assert (H926 : Float.lt d (F64.of_Z 926) = true -> Float.lt d (F64.of_Z 4000) = true).
  { intros H. apply (lt_trans _ _ _ H). reflexivity. }
  destruct (InBetween v (-304) 304); rewrite ?andb_true_r, ?andb_false_r; cbn [andb].
  - destruct (Float.lt d (F64.of_Z 926)) eqn:E1.
    + rewrite (H926 eq_refl). cbn [fst snd]. repeat split; try lia; try discriminate.
      intros ->. discriminate.
    + destruct (Float.lt d (F64.of_Z 4000)) eqn:E2;
        [| destruct (Float.lt d (F64.of_Z 8000)) eqn:E3;
           [| destruct (Float.lt d (F64.of_Z 12000)) eqn:E4]];
        cbn [fst snd]; repeat split; try lia; try discriminate;
        intros ->; discriminate.
  - cbn [fst snd]. repeat split; try lia; try discriminate.
Qed.

(** ** The signal bands (lines 150-175) *)

Lemma gt_chain (s : float64) (a b : Z) :
  Float.lt (F64.of_Z a) (F64.of_Z b) = true ->
  Float.gt s (F64.of_Z b) = true -> Float.gt s (F64.of_Z a) = true.
Proof. intros Hab Hg. unfold Float.gt in *. exact (lt_trans _ _ _ Hab Hg). Qed.

Ltac by_chain s :=
  match goal with
  | G : Float.gt s (F64.of_Z ?b) = true |- Float.gt s (F64.of_Z ?a) = true =>
      apply (gt_chain s a b); [reflexivity | exact G]
  end.

(** Each threshold is passed exactly when the range is nonzero and at most
    the range of its band. *)
Lemma signal_range_thresholds (s : float64) :
  (Float.gt s (F64.of_Z (-5)) = true <-> 0 < signal_range s <= 463) /\
  (Float.gt s (F64.of_Z (-10)) = true <-> 0 < signal_range s <= 3704) /\
  (Float.gt s (F64.of_Z (-15)) = true <-> 0 < signal_range s <= 7408) /\
  (Float.gt s (F64.of_Z (-18)) = true <-> 0 < signal_range s <= 11112) /\
  (Float.gt s (F64.of_Z (-20)) = true <-> 0 < signal_range s <= 14816) /\
  (Float.gt s (F64.of_Z (-25)) = true <-> 0 < signal_range s <= 29632).
Proof.
  unfold signal_range.
  destruct (Float.gt s (F64.of_Z (-5))) eqn:G5;
    [| destruct (Float.gt s (F64.of_Z (-10))) eqn:G10;
       [| destruct (Float.gt s (F64.of_Z (-15))) eqn:G15;
          [| destruct (Float.gt s (F64.of_Z (-18))) eqn:G18;
             [| destruct (Float.gt s (F64.of_Z (-20))) eqn:G20;
                [| destruct (Float.gt s (F64.of_Z (-25))) eqn:G25]]]]];
    repeat split; intros; try lia; try discriminate; try reflexivity;
    try by_chain s.
Qed.

Lemma signal_range_values (s : float64) :
  In (signal_range s) [463; 3704; 7408; 11112; 14816; 29632; 0].
Proof.
  unfold signal_range. repeat (destruct (Float.gt s _); [simpl; tauto |]).
  simpl; tauto.
Qed.

(** X3. The nominal range of the signal-strength regime is one of six
    values or 0, where 0 says that no band applies; it is 0 exactly when the
    level is not above -25 (which includes a level that is not a number).
    Of two levels, when a band applies to the weaker one, a band applies to
    the stronger one too and its range is not larger; when no band applies
    to the stronger one, none applies to the weaker one. *)
Theorem signal_range_monotone (s1 s2 : float64) :
  In (signal_range s1) [463; 3704; 7408; 11112; 14816; 29632; 0] /\
  (signal_range s1 = 0 <-> Float.gt s1 (F64.of_Z (-25)) = false) /\
  (Float.lt s1 s2 = true -> signal_range s1 <> 0 ->
     0 < signal_range s2 <= signal_range s1) /\
  (Float.lt s1 s2 = true -> signal_range s2 = 0 -> signal_range s1 = 0).
Proof.
  pose proof (signal_range_values s1) as Hval.
  split; [exact Hval |].
  destruct (signal_range_thresholds s1) as (A5 & A10 & A15 & A18 & A20 & A25).
  destruct (signal_range_thresholds s2) as (B5 & B10 & B15 & B18 & B20 & B25).
  assert (Hmono : Float.lt s1 s2 = true -> signal_range s1 <> 0 ->
                  0 < signal_range s2 <= signal_range s1).
  { intros Hlt Hne.
    assert (Hup : forall k, Float.gt s1 k = true -> Float.gt s2 k = true).
    { intros k Hg. unfold Float.gt in *. exact (lt_trans _ _ _ Hg Hlt). }
    destruct Hval as [H | [H | [H | [H | [H | [H | [H | []]]]]]]]; try congruence.
    + assert (0 < signal_range s2 <= 463) by (apply B5, Hup, A5; lia). lia.
    + assert (0 < signal_range s2 <= 3704) by (apply B10, Hup, A10; lia). lia.
    + assert (0 < signal_range s2 <= 7408) by (apply B15, Hup, A15; lia). lia.
    + assert (0 < signal_range s2 <= 11112) by (apply B18, Hup, A18; lia). lia.
    + assert (0 < signal_range s2 <= 14816) by (apply B20, Hup, A20; lia). lia.
    + assert (0 < signal_range s2 <= 29632) by (apply B25, Hup, A25; lia). lia. }
  split; [| split; [exact Hmono |]].
  - split; intros H0.
    + destruct (Float.gt s1 (F64.of_Z (-25))) eqn:G; [| reflexivity].
      pose proof (proj1 A25 eq_refl). lia.
    + destruct (Z.eq_dec (signal_range s1) 0) as [E | E]; [exact E |].
      assert (Float.gt s1 (F64.of_Z (-25)) = true).
      { apply A25. simpl in Hval. lia. }
      congruence.
  - intros Hlt H2.
    destruct (Z.eq_dec (signal_range s1) 0) as [E | E]; [exact E |].
    specialize (Hmono Hlt E). lia.
Qed.

(** X3 between -12 dB and -3 dB: the ranges are 7408 and 463. *)
Lemma signal_range_monotone_witness :
  Float.lt (F64.of_Z (-12)) (F64.of_Z (-3)) = true /\
  signal_range (F64.of_Z (-12)) <> 0 /\
  0 < signal_range (F64.of_Z (-3)) <= signal_range (F64.of_Z (-12)).
Proof.
  split; [reflexivity |]. split; [vm_compute; discriminate |].
  apply (signal_range_monotone (F64.of_Z (-12)) (F64.of_Z (-3)));
    [reflexivity | vm_compute; discriminate].
Defined.

(** A weaker level without a band before a stronger level with one. *)
Example signal_range_from_zero :
  Float.lt (F64.of_Z (-30)) (F64.of_Z (-3)) = true /\
  signal_range (F64.of_Z (-30)) = 0 /\ signal_range (F64.of_Z (-3)) = 463.
Proof. vm_compute. repeat split; reflexivity. Qed.

(** ** The climb rate (lines 241-246) *)

(** X10. Whatever the vertical velocity, the climb rate passed to the
    sentence is neither above 32.7 nor below -32.7. *)
Theorem climb_rate_limited (vvel : Z) :
  Float.gt (climb_rate vvel) (F32.const 327 10) = false /\
  Float.lt (climb_rate vvel) (Float.neg (F32.const 327 10)) = false.
Proof.
  unfold climb_rate, limit_climb.
  set (c := F32.div _ _).
  destruct (Float.gt c (F32.const 327 10)) eqn:E1.
  - split; [apply lt_irrefl | reflexivity].
  - destruct (Float.lt c (Float.neg (F32.const 327 10))) eqn:E2.
    + split; [reflexivity | apply lt_irrefl].
    + split; assumption.
Qed.

(** ** Acceptance and rejection (lines 121-209) *)

Section Acceptance.
Variable cvt_indefinite : spec_float -> Z.
Variable distRect : float64 -> float64 -> float64 -> float64 ->
                    float64 * float64 * float64 * float64.

(** X4. The generator returns [valid = true] exactly when the target's
    altitude is positive, the ownship has a valid fix of nonzero quality, and
    either position and speed are both valid, or position, speed and track
    are all invalid, a signal band applies and the vertical offset is within
    [-310, 310]. *)
Theorem valid_exactly_when (w : World) (ti : TrafficInfo) :
  snd (fst (makeFlarmPFLAAString cvt_indefinite distRect w ti)) = true <->
  0 < Alt ti /\ have_fix w = true /\
  ((Position_valid ti = true /\ Speed_valid ti = true) \/
   (Position_valid ti = false /\ Speed_valid ti = false /\ Track ti <= 0 /\
    signal_range (SignalLevel ti) <> 0 /\
    InBetween (relative_vertical cvt_indefinite w ti) (-310) 310 = true)).
Proof.
  unfold makeFlarmPFLAAString, classify, have_fix.
  destruct (distRect _ _ _ _) as [[[d b] dn] de].
  rewrite andb_true_iff, Z.ltb_lt.
  destruct (select_regime w ti) as [[|]|] eqn:E.
  - apply select_regime_full_fix in E as (Ha & Hp & Hs & Hg & Hq).
    simpl. destruct (alarm_bands _ _). simpl. tauto.
  - apply select_regime_signal in E as (Ha & Hp & Hs & Ht & Hg & Hq).
    destruct (Z.eqb_spec (signal_range (SignalLevel ti)) 0) as [Hz | Hz].
    + simpl. split; [discriminate |].
      intros (_ & _ & [[Hp' _] | (_ & _ & _ & Hn & _)]); congruence.
    + cbn [andb]. destruct (InBetween _ _ _) eqn:Hb; cbn [negb].
      * destruct (alarm_bands _ _). simpl. tauto.
      * simpl. split; [discriminate |].
        intros (_ & _ & [[Hp' _] | (_ & _ & _ & _ & Hn)]); congruence.
  - simpl. split; [discriminate |].
    intros (Ha & [Hg Hq] & [[Hp Hs] | (Hp & Hs & Ht & _)]); exfalso.
    + assert (select_regime w ti = Some FullFix)
        by (apply select_regime_full_fix; tauto). congruence.
    + assert (select_regime w ti = Some SignalStrength)
        by (apply select_regime_signal; tauto). congruence.
Qed.

(** X5. A target classified under the signal-strength regime gets one of the
    six nominal ranges as relative north, a vertical offset within
    [-310, 310], an alarm level that follows from the range (3 up to 3704 m,
    2 at 7408 m, 1 at 11112 m, 0 beyond or outside +/-304 m), a PFLAA with
    blank east, track, speed and climb fields, and always the blank PFLAU. *)
Theorem signal_strength_sentence (w : World) (ti : TrafficInfo) (c : classification) :
  select_regime w ti = Some SignalStrength ->
  classify cvt_indefinite distRect w ti = Some c ->
  In (relativeNorth c) [463; 3704; 7408; 11112; 14816; 29632] /\
  -310 <= relativeVertical c <= 310 /\
  alarmLevel c =
    (if InBetween (relativeVertical c) (-304) 304 then
       if relativeNorth c <=? 3704 then 3
       else if relativeNorth c =? 7408 then 2
       else if relativeNorth c =? 11112 then 1 else 0
     else 0) /\
  PFLAA cvt_indefinite ti c =
    frame_02X ("PFLAA," +:+ fmt_d (alarmLevel c) +:+ "," +:+ fmt_d (relativeNorth c)
               +:+ ",," +:+ fmt_d (relativeVertical c) +:+ ",1,"
               +:+ fmt_X (Icao_addr ti) +:+ "!" +:+ Tail ti +:+ ",,,,,"
               +:+ fmt_d (aircraft_type (Emitter_category ti))) /\
  snd (makeFlarmPFLAAString cvt_indefinite distRect w ti) = sendNetFLARM w blank_PFLAU.
Proof.
  intros Hs Hc.
  pose proof (proj1 (select_regime_signal w ti) Hs) as (Ha & Hp & Hsp & Ht & Hg & Hq).
  assert (Heff : snd (makeFlarmPFLAAString cvt_indefinite distRect w ti)
                 = sendNetFLARM w (PFLAU cvt_indefinite w ti c)).
  { unfold makeFlarmPFLAAString. now rewrite Hc. }
  revert Hc. unfold classify.
  destruct (distRect _ _ _ _) as [[[d b] dn] de]. rewrite Hs.
  destruct (Z.eqb_spec (signal_range (SignalLevel ti)) 0) as [Hz | Hz];
    [discriminate |].
  cbn [andb]. destruct (InBetween _ (-310) 310) eqn:Hb; cbn [negb]; [| discriminate].
  destruct (alarm_bands _ _) as [lvl typ] eqn:Hal. intros [= <-].
  cbn [relativeNorth relativeVertical alarmLevel rEast track modec_valid] in *.
  assert (Hin : In (signal_range (SignalLevel ti))
                   [463; 3704; 7408; 11112; 14816; 29632]).
  { pose proof (signal_range_values (SignalLevel ti)) as Hv.
    simpl in Hv. simpl. intuition congruence. }
  repeat split.
  - exact Hin.
  - unfold InBetween in Hb. apply andb_prop in Hb as [H1 _]. now apply Z.leb_le.
  - unfold InBetween in Hb. apply andb_prop in Hb as [_ H2]. now apply Z.leb_le.
  - assert (Hl : lvl = fst (alarm_bands (F64.of_Z (signal_range (SignalLevel ti)))
                              (relative_vertical cvt_indefinite w ti)))
      by now rewrite Hal.
    rewrite Hl. unfold alarm_bands.
    destruct (InBetween _ (-304) 304); rewrite ?andb_true_r, ?andb_false_r;
      [| reflexivity].
    simpl in Hin.
    destruct Hin as [H | [H | [H | [H | [H | [H | []]]]]]]; rewrite <- H;
      reflexivity.
  - unfold PFLAA. rewrite Hsp.
    cbn [relativeNorth relativeVertical alarmLevel rEast track]. reflexivity.
  - rewrite Heff. unfold PFLAU. cbn [modec_valid]. rewrite Hg.
    apply Z.ltb_lt in Hq. rewrite Hq, andb_false_r. reflexivity.
Qed.

End Acceptance.

Lemma signal_strength_sentence_witness :
  exists c,
    select_regime Sample.world Sample.target_mode_c = Some SignalStrength /\
    classify Sample.cvt (Sample.rect 500 0 500 0) Sample.world Sample.target_mode_c
      = Some c /\
    snd (makeFlarmPFLAAString Sample.cvt (Sample.rect 500 0 500 0)
           Sample.world Sample.target_mode_c)
      = sendNetFLARM Sample.world blank_PFLAU.
Proof.
  eexists. split; [vm_compute; reflexivity |]. split; [vm_compute; reflexivity |].
  eapply (signal_strength_sentence Sample.cvt (Sample.rect 500 0 500 0)
            Sample.world Sample.target_mode_c); vm_compute; reflexivity.
Defined.

(** ** What is sent and what is returned (lines 271-317) *)

Ltac peel_prefix m H :=
  destruct m as [| ?c m]; [discriminate H |];
  cbn [String.prefix] in H;
  match type of H with
  | context [ascii_dec ?a ?b] => destruct (ascii_dec a b); [subst | discriminate H]
  end.

Lemma PFLAU_prefix_excludes_PFLAA (m : string) :
  String.prefix "$PFLAU,1,1,2,1," m = true -> String.prefix "$PFLAA," m = false.
Proof.
  intros H. do 5 peel_prefix m H.
  destruct m as [| c m]; [discriminate H |].
  cbn [String.prefix] in H.
  destruct (ascii_dec "U" c); [subst | discriminate H].
  reflexivity.
Qed.

Lemma frame_02X_prefix (p rest : string) :
  String.prefix ("$" +:+ p) (frame_02X (p +:+ rest)) = true.
Proof.
  unfold frame_02X. generalize (fmt_02X (checksum_of (p +:+ rest))). intros k.
  apply String.prefix_correct.
  change ("$" +:+ p) with (String "$" p).
  change ("$" +:+ (p +:+ rest) +:+ "*" +:+ k +:+ CRLF)
    with (String "$" ((p +:+ rest) +:+ "*" +:+ k +:+ CRLF)).
  cbn [String.length String.substring]. f_equal.
  rewrite append_assoc.
  generalize (rest +:+ "*" +:+ k +:+ CRLF). intros r.
  induction p as [| a p IH]; cbn [String.length String.append String.substring].
  - now destruct r.
  - now rewrite IH.
Qed.

Section Sent.
Variable cvt_indefinite : spec_float -> Z.
Variable distRect : float64 -> float64 -> float64 -> float64 ->
                    float64 * float64 * float64 * float64.

(** X6. Every message the generator passes to the network or to the channel
    is a PFLAU sentence; the sentence it returns is a PFLAA sentence when
    [valid] is true and the empty string otherwise, and the returned
    sentence is never among the messages sent. *)
Theorem only_PFLAU_is_sent (w : World) (ti : TrafficInfo) :
  let r := makeFlarmPFLAAString cvt_indefinite distRect w ti in
  (forall m, In (SendMsg m) (snd r) \/ In (ChanSend m) (snd r) ->
             String.prefix "$PFLAU,1,1,2,1," m = true) /\
  (snd (fst r) = true -> String.prefix "$PFLAA," (fst (fst r)) = true) /\
  (snd (fst r) = false -> fst (fst r) = "") /\
  ~ In (SendMsg (fst (fst r))) (snd r) /\ ~ In (ChanSend (fst (fst r))) (snd r).
Proof.
  cbv zeta.
  assert (Hsent : forall m,
            In (SendMsg m) (snd (makeFlarmPFLAAString cvt_indefinite distRect w ti)) \/
            In (ChanSend m) (snd (makeFlarmPFLAAString cvt_indefinite distRect w ti)) ->
            String.prefix "$PFLAU,1,1,2,1," m = true).
  { intros m. unfold makeFlarmPFLAAString.
    destruct (classify cvt_indefinite distRect w ti) as [c |] eqn:Hc;
      [| simpl; tauto].
    pose proof (classify_have_fix _ _ _ _ _ Hc) as Hf. unfold have_fix in Hf.
    apply andb_prop in Hf as [Hg Hq].
    assert (Hm : String.prefix "$PFLAU,1,1,2,1," (PFLAU cvt_indefinite w ti c) = true).
    { unfold PFLAU. rewrite Hg, Hq.
      destruct (_ && _).
      - unfold populated_PFLAU. apply (frame_02X_prefix "PFLAU,1,1,2,1,").
      - reflexivity. }
    cbn [snd]. unfold sendNetFLARM.
    destruct (NetworkFLARM _); simpl; intros Hin;
      repeat (destruct Hin as [Hin | Hin]);
      try discriminate Hin; try contradiction;
      injection Hin as <-; exact Hm. }
  assert (Hret : snd (fst (makeFlarmPFLAAString cvt_indefinite distRect w ti)) = true ->
            String.prefix "$PFLAA,"
              (fst (fst (makeFlarmPFLAAString cvt_indefinite distRect w ti))) = true).
  { unfold makeFlarmPFLAAString.
    destruct (classify cvt_indefinite distRect w ti) as [c |]; [| discriminate].
    intros _. cbn [fst]. unfold PFLAA.
    destruct (if Speed_valid ti then _ else _) as [gSpeed cRate].
    apply (frame_02X_prefix "PFLAA,"). }
  assert (Hnone : snd (fst (makeFlarmPFLAAString cvt_indefinite distRect w ti)) = false ->
            fst (fst (makeFlarmPFLAAString cvt_indefinite distRect w ti)) = "").
  { unfold makeFlarmPFLAAString.
    destruct (classify cvt_indefinite distRect w ti) as [c |]; [discriminate |].
    reflexivity. }
  assert (Hnot : forall m, String.prefix "$PFLAU,1,1,2,1," m = true ->
            m <> fst (fst (makeFlarmPFLAAString cvt_indefinite distRect w ti))).
  { intros m Hm ->.
    destruct (snd (fst (makeFlarmPFLAAString cvt_indefinite distRect w ti))) eqn:Ev.
    - apply PFLAU_prefix_excludes_PFLAA in Hm. rewrite (Hret eq_refl) in Hm.
      discriminate.
    - rewrite (Hnone eq_refl) in Hm. discriminate. }
  repeat split; try assumption.
  - intros H. eapply Hnot; [apply Hsent; left; exact H | reflexivity].
  - intros H. eapply Hnot; [apply Hsent; right; exact H | reflexivity].
Qed.

(** X12. For a target whose callsign contains "F-", and for every target
    while [isTempPressValid()] is false, the result does not depend on the
    barometric altitude of the ownship. *)
Theorem vertical_reference_ignores_baro (w : World) (ti : TrafficInfo) (baro : float32) :
  Contains (Tail ti) "F-" = true \/ isTempPressValid w = false ->
  makeFlarmPFLAAString cvt_indefinite distRect (with_baro w baro) ti =
  makeFlarmPFLAAString cvt_indefinite distRect w ti.
Proof.
  intros H.
  assert (Halt : own_altitude (with_baro w baro) ti = own_altitude w ti).
  { unfold own_altitude, with_baro, with_situation.
    cbn [isTempPressValid mySituation GPSAltitudeMSL BaroPressureAltitude].
    destruct H as [-> | ->]; [destruct (negb _) |]; reflexivity. }
  unfold makeFlarmPFLAAString, classify, relative_vertical, PFLAU, sendNetFLARM,
    select_regime.
  rewrite Halt. reflexivity.
Qed.

End Sent.

Lemma vertical_reference_ignores_baro_witness :
  Contains (Tail SampleFlarm.target_flarm) "F-" = true /\
  makeFlarmPFLAAString Sample.cvt (Sample.rect 3000 90 100 3000)
    (with_baro Sample.world (F32.of_Z 9000)) SampleFlarm.target_flarm =
  makeFlarmPFLAAString Sample.cvt (Sample.rect 3000 90 100 3000)
    Sample.world SampleFlarm.target_flarm.
Proof.
  split; [reflexivity |].
  apply (vertical_reference_ignores_baro Sample.cvt (Sample.rect 3000 90 100 3000)
           Sample.world SampleFlarm.target_flarm (F32.of_Z 9000)).
  left. reflexivity.
Defined.

(** The PFLAA framing at a target with an ASCII callsign. *)
Lemma PFLAA_checksum_witness :
  exists c,
    classify Sample.cvt (Sample.rect 3000 90 100 3000) Sample.world Sample.target
      = Some c /\
    is_ascii (Tail Sample.target) /\
    exists (body : string) (hi lo : N),
      (hi < 16)%N /\ (lo < 16)%N /\ Z.of_N (16 * hi + lo) = xor_bytes body /\
      PFLAA Sample.cvt Sample.target c =
        "$" +:+ body +:+ "*" +:+ String (digit_char hi) (String (digit_char lo) "")
        +:+ CRLF.
Proof.
  eexists. split; [vm_compute; reflexivity |].
  split; [unfold is_ascii; vm_compute; repeat constructor |].
  apply (PFLAA_checksum Sample.cvt (Sample.rect 3000 90 100 3000) Sample.world).
  - vm_compute. reflexivity.
  - unfold is_ascii. vm_compute. repeat constructor.
Defined.

(** ** The GPS sentences (lines 326-502) *)

(** X9. For every snapshot both GPS sentences are "$", the body, "*", the
    XOR of all bytes of the body printed by [%X], and CR LF; whenever that
    XOR is 16 or more the field is the two-digit upper-case number. *)
Theorem gps_checksum_field (w : World) :
  (makeGPRMCString w =
     "$" +:+ gprmc_body w +:+ "*" +:+ fmt_X (xor_bytes (gprmc_body w)) +:+ CRLF /\
   makeGPGGAString w =
     "$" +:+ gpgga_body w +:+ "*" +:+ fmt_X (xor_bytes (gpgga_body w)) +:+ CRLF) /\
  (forall body : string,
     body = gprmc_body w \/ body = gpgga_body w ->
     0 <= xor_bytes body < 256 /\
     (16 <= xor_bytes body ->
      exists hi lo : N,
        (0 < hi < 16)%N /\ (lo < 16)%N /\ Z.of_N (16 * hi + lo) = xor_bytes body /\
        fmt_X (xor_bytes body) = String (digit_char hi) (String (digit_char lo) ""))).
Proof.
  destruct (gps_bodies_ascii w) as [Hr Hg].
  split.
  - unfold makeGPRMCString, makeGPGGAString, frame_X.
    now rewrite (checksum_of_ascii _ Hr), (checksum_of_ascii _ Hg).
  - intros body Hb.
    assert (Ha : is_ascii body) by (destruct Hb as [-> | ->]; assumption).
    pose proof (checksum_of_range body) as Hrange.
    rewrite (checksum_of_ascii _ Ha) in Hrange.
    split; [exact Hrange |]. intros H16.
    exists (Z.to_N (xor_bytes body) / 16)%N, (Z.to_N (xor_bytes body) mod 16)%N.
    assert (Hdiv : (1 <= Z.to_N (xor_bytes body) / 16)%N).
    { apply N.div_le_lower_bound; lia. }
    repeat split.
    + lia.
    + apply N.Div0.div_lt_upper_bound. lia.
    + apply N.mod_upper_bound. lia.
    + rewrite <- N.div_mod by lia. lia.
    + rewrite <- (fmt_02X_byte _ Hrange).
      assert (Hall : forallb (fun n =>
                String.eqb (fmt_X (Z.of_nat n)) (fmt_02X (Z.of_nat n)))
                (seq 16 240) = true) by (vm_compute; reflexivity).
      rewrite forallb_forall in Hall.
      specialize (Hall (Z.to_nat (xor_bytes body))).
      rewrite Z2Nat.id in Hall by lia.
      apply String.eqb_eq, Hall, in_seq. lia.
Qed.

Lemma convert_neg (prec emax : Z) (x : spec_float) :
  Float.convert prec emax (Float.neg x) = Float.neg (Float.convert prec emax x).
Proof.
  destruct x as [s | s | | s m e]; try reflexivity.
  unfold Float.convert, Float.neg, SFopp, binary_round, binary_round_aux.
  destruct (shl_align _ _ _) as [mz ez].
  destruct (shr_fexp _ _ _ _ _) as [mrs e'].
  destruct (shr_fexp _ _ _ _ _) as [mrs' e''].
  destruct (shr_m mrs'); try reflexivity.
  now destruct (_ <=? _).
Qed.

Lemma neg_involutive (x : spec_float) : Float.neg (Float.neg x) = x.
Proof. destruct x as [s | s | | s m e]; simpl; now rewrite ?negb_involutive. Qed.

Lemma neg_of_positive (x : spec_float) :
  Float.lt (S754_zero false) x = true ->
  Float.lt (Float.neg x) (S754_zero false) = true.
Proof.
  unfold Float.lt, SFltb. destruct x as [s | s | | s m e]; simpl;
    try discriminate; now destruct s.
Qed.

(** X11. A position south of the equator or west of Greenwich is written
    as its mirror image: the same ddmm.mmmmm magnitude, with the letter
    turned. *)
Theorem deg_min_mirror (angle : float32) :
  Float.lt (S754_zero false) (F64.of_f32 angle) = true ->
  deg_min angle = (fst (deg_min angle), false) /\
  deg_min (Float.neg angle) = (fst (deg_min angle), true).
Proof.
  intros Hpos. unfold deg_min.
  unfold F64.of_f32 in *. rewrite convert_neg.
  rewrite (neg_of_positive _ Hpos), (lt_asym _ _ Hpos), neg_involutive.
  split; reflexivity.
Qed.

Lemma deg_min_mirror_witness :
  Float.lt (S754_zero false) (F64.of_f32 (F32.const 4807038 100000)) = true /\
  deg_min (Float.neg (F32.const 4807038 100000)) =
    (fst (deg_min (F32.const 4807038 100000)), true).
Proof.
  split; [reflexivity |].
  apply (deg_min_mirror (F32.const 4807038 100000)). reflexivity.
Defined.

(** X13. More than 12 satellites are reported as 12: the GPGGA sentence is
    the one of the same snapshot with 12 satellites. *)
Theorem gpgga_satellites_capped (w : World) :
  12 < GPSSatellites (mySituation w) ->
  makeGPGGAString w = makeGPGGAString (with_satellites w 12).
Proof.
  intros H. unfold makeGPGGAString, gpgga_body, with_satellites, with_situation.
  cbn [mySituation isGPSValid GPSSatellites GPSLatitude GPSLongitude
       GPSLastFixSinceMidnightUTC GPSFixQuality GPSAltitudeMSL GPSGeoidSep].
  apply Z.ltb_lt in H. rewrite H. reflexivity.
Qed.

Lemma gpgga_satellites_capped_witness :
  12 < GPSSatellites (mySituation (with_satellites Sample.world 17)) /\
  makeGPGGAString (with_satellites Sample.world 17) =
  makeGPGGAString (with_satellites (with_satellites Sample.world 17) 12).
Proof.
  split; [simpl; lia |].
  apply (gpgga_satellites_capped (with_satellites Sample.world 17)). simpl. lia.
Defined.

(** ** The registry over a run of events (lines 622-642) *)

Lemma handle_msg_elem (clients : gmap conn chan) (msg : string) (d : dispatch) :
  d ∈ snd (handle clients (FromMsgchan msg)) <->
  payload d = msg /\ exists c, clients !! c = Some (to_chan d).
Proof.
  simpl. rewrite list_elem_of_fmap. destruct d as [ch m]. simpl. split.
  - intros ([c ch'] & Heq & Hin). simpl in Heq. injection Heq as -> ->.
    apply elem_of_map_to_list in Hin. split; [reflexivity | now exists c].
  - intros [-> [c Hc]]. exists (c, ch). split; [reflexivity |].
    now apply elem_of_map_to_list.
Qed.

Lemma handleMessages_from_app (clients : gmap conn chan) (rs1 rs2 : list received) :
  handleMessages_from clients (rs1 ++ rs2) =
    (fst (handleMessages_from (fst (handleMessages_from clients rs1)) rs2),
     snd (handleMessages_from clients rs1)
     ++ snd (handleMessages_from (fst (handleMessages_from clients rs1)) rs2)).
Proof.
  revert clients. induction rs1 as [| r rs1 IH]; intros clients; simpl.
  - now destruct (handleMessages_from clients rs2).
  - destruct (handle clients r) as [c0 d0]. rewrite IH.
    destruct (handleMessages_from c0 rs1) as [c1 d1]. simpl.
    now rewrite app_assoc.
Qed.

Lemma dispatch_in_run (clients : gmap conn chan) (rs : list received) (d : dispatch) :
  d ∈ snd (handleMessages_from clients rs) <->
  exists rs1 rs2 c,
    rs = rs1 ++ FromMsgchan (payload d) :: rs2 /\
    fst (handleMessages_from clients rs1) !! c = Some (to_chan d).
Proof.
  split.
  - revert clients. induction rs as [| r rs IH]; intros clients; simpl.
    + intros H. now apply not_elem_of_nil in H.
    + destruct (handle clients r) as [c0 d0] eqn:Hh.
      destruct (handleMessages_from c0 rs) as [c1 d1] eqn:Hr. simpl.
      rewrite elem_of_app. intros [H | H].
      * destruct r as [msg | cl | cl]; simpl in Hh; injection Hh as <- <-;
          try (now apply not_elem_of_nil in H).
        apply (handle_msg_elem clients msg d) in H as [Hp [c Hc]].
        exists [], rs, c. rewrite Hp. split; [reflexivity | exact Hc].
      * specialize (IH c0). rewrite Hr in IH.
        destruct (IH H) as (rs1 & rs2 & c & -> & Hc).
        exists (r :: rs1), rs2, c. split; [reflexivity |].
        simpl. rewrite Hh. destruct (handleMessages_from c0 rs1). exact Hc.
  - intros (rs1 & rs2 & c & -> & Hc).
    rewrite handleMessages_from_app. cbn [snd]. rewrite elem_of_app. right.
    cbn [handleMessages_from].
    destruct (handle _ (FromMsgchan (payload d))) as [c0 d0] eqn:Hh.
    destruct (handleMessages_from c0 rs2) as [c1 d1]. cbn [snd].
    rewrite elem_of_app. left.
    change d0 with (snd (c0, d0)). rewrite <- Hh.
    apply handle_msg_elem. split; [reflexivity | now exists c].
Qed.

(** X14. Over any run of the loop, a sentence is dispatched to a channel
    exactly when the run holds a message with that sentence and, at the
    moment this message is received, some connection is registered with that
    channel. *)
Theorem dispatched_exactly_to_registered (rs : list received) (d : dispatch) :
  d ∈ snd (handleMessages rs) <->
  exists rs1 rs2 c,
    rs = rs1 ++ FromMsgchan (payload d) :: rs2 /\
    fst (handleMessages rs1) !! c = Some (to_chan d).
Proof. apply dispatch_in_run. Qed.

Lemma registered_run (clients : gmap conn chan) (rs : list received) (c : conn) :
  fst (handleMessages_from clients rs) !! c = registered rs c (clients !! c).
Proof.
  revert clients. induction rs as [| r rs IH]; intros clients; simpl;
    [reflexivity |].
  destruct (handle clients r) as [c0 d0] eqn:Hh. specialize (IH c0).
  destruct (handleMessages_from c0 rs) as [c1 d1]. simpl in *. rewrite IH.
  destruct r as [msg | cl | cl]; simpl in Hh; injection Hh as <- <-.
  - reflexivity.
  - destruct (Pos.eqb_spec (client_conn cl) c) as [-> | Hne].
    + now rewrite lookup_insert_eq.
    + now rewrite lookup_insert_ne.
  - destruct (Pos.eqb_spec (client_conn cl) c) as [-> | Hne].
    + now rewrite lookup_delete_eq.
    + now rewrite lookup_delete_ne.
Qed.

(** X15. After any run, the channel registered for a connection is the one
    of the last registration naming that connection, unless a later
    deregistration names it; events of other connections and messages do not
    touch it, and a deregistration counts whatever channel it carries. *)
Theorem registry_entry_after_run (rs : list received) (c : conn) :
  fst (handleMessages rs) !! c = registered rs c None /\
  (forall client,
     fst (handleMessages (rs ++ [FromAddchan client])) !! client_conn client
       = Some (client_ch client)) /\
  (forall client,
     fst (handleMessages (rs ++ [FromRmchan client])) !! client_conn client = None) /\
  (forall r, (forall client, r = FromAddchan client \/ r = FromRmchan client ->
                             client_conn client <> c) ->
     fst (handleMessages (rs ++ [r])) !! c = fst (handleMessages rs) !! c).
Proof.
  unfold handleMessages. split; [| split; [| split]].
  - rewrite registered_run. now rewrite lookup_empty.
  - intros client. rewrite handleMessages_from_app. simpl.
    apply lookup_insert_eq.
  - intros client. rewrite handleMessages_from_app. simpl.
    apply lookup_delete_eq.
  - intros r Hr. rewrite handleMessages_from_app.
    destruct r as [msg | cl | cl]; simpl.
    + reflexivity.
    + apply lookup_insert_ne. apply (Hr cl). now left.
    + apply lookup_delete_ne. apply (Hr cl). now right.
Qed.

(** X16. While no client has registered, every message is dropped: a run
    without a registration starts no goroutine and leaves the map empty. *)
Theorem messages_without_clients_are_dropped (rs : list received) :
  forallb (fun r => negb (is_add r)) rs = true ->
  handleMessages rs = (∅, []).
Proof.
  unfold handleMessages. induction rs as [| r rs IH]; simpl; [reflexivity |].
  intros H. apply andb_prop in H as [Hr Hrs].
  destruct r as [msg | cl | cl]; simpl in *; try discriminate.
  - rewrite map_to_list_empty. simpl. now rewrite (IH Hrs).
  - rewrite delete_empty. now rewrite (IH Hrs).
Qed.

Lemma messages_without_clients_are_dropped_witness :
  forallb (fun r => negb (is_add r))
    [FromMsgchan "a"; FromRmchan {| client_conn := 1%positive; client_ch := 2%positive |};
     FromMsgchan "b"] = true /\
  handleMessages
    [FromMsgchan "a"; FromRmchan {| client_conn := 1%positive; client_ch := 2%positive |};
     FromMsgchan "b"] = (∅, []).
Proof.
  split; [reflexivity |].
  apply (messages_without_clients_are_dropped
           [FromMsgchan "a"; FromRmchan {| client_conn := 1%positive; client_ch := 2%positive |};
            FromMsgchan "b"]).
  reflexivity.
Defined.

(** ** The session of one client (lines 559-620) *)

Lemma WriteLinesFrom_failed (write_ok : nat -> bool) (n : nat) (msgs : list string) :
  snd (WriteLinesFrom write_ok n msgs) =
  existsb (fun i => negb (write_ok i)) (seq n (length msgs)).
Proof.
  revert n. induction msgs as [| msg msgs IH]; intros n; [reflexivity |].
  cbn [WriteLinesFrom length seq existsb].
  destruct (write_ok n); cbn [negb orb]; [| reflexivity].
  specialize (IH (S n)). destruct (WriteLinesFrom write_ok (S n) msgs) as [evs f].
  exact IH.
Qed.

Lemma WriteLinesFrom_spec (write_ok : nat -> bool) (n : nat) (msgs : list string) :
  exists k : nat,
    (k <= length msgs)%nat /\
    (forall i, (i < k)%nat -> write_ok (n + i)%nat = true) /\
    if snd (WriteLinesFrom write_ok n msgs) then
      (k < length msgs)%nat /\ write_ok (n + k)%nat = false /\
      fst (WriteLinesFrom write_ok n msgs) =
        map (fun m => WriteString m true) (firstn k msgs)
        ++ [WriteString (nth k msgs "") false]
    else
      k = length msgs /\
      fst (WriteLinesFrom write_ok n msgs) = map (fun m => WriteString m true) msgs.
Proof.
  revert n. induction msgs as [| msg msgs IH]; intros n.
  - exists 0%nat. simpl. repeat split; lia.
  - cbn [WriteLinesFrom]. destruct (write_ok n) eqn:Hn.
    + destruct (IH (S n)) as (k & Hk & Hok & Hrest).
      destruct (WriteLinesFrom write_ok (S n) msgs) as [evs f]. cbn [fst snd] in *.
      exists (S k). split; [simpl; lia |]. split.
      * intros i Hi. destruct i as [| i]; [now rewrite Nat.add_0_r |].
        rewrite <- Nat.add_succ_comm. apply Hok. lia.
      * destruct f.
        -- destruct Hrest as (Hlt & Hfail & ->). rewrite <- Nat.add_succ_comm.
           repeat split; [simpl; lia | exact Hfail].
        -- destruct Hrest as (-> & ->). split; reflexivity.
    + exists 0%nat. cbn [fst snd]. split; [simpl; lia |]. split.
      * intros i Hi. lia.
      * rewrite Nat.add_0_r. repeat split; [simpl; lia | exact Hn].
Qed.

(** X17. [WriteLinesFrom] writes the messages in the order they arrive and
    stops at the first write that fails: after [k] successful writes either
    all messages are written, or the next write failed, is the last event,
    and the loop has returned. *)
Theorem WriteLinesFrom_stops_at_first_failure
    (write_ok : nat -> bool) (n : nat) (msgs : list string) :
  exists k : nat,
    (k <= length msgs)%nat /\
    (forall i, (i < k)%nat -> write_ok (n + i)%nat = true) /\
    if snd (WriteLinesFrom write_ok n msgs) then
      (k < length msgs)%nat /\ write_ok (n + k)%nat = false /\
      fst (WriteLinesFrom write_ok n msgs) =
        map (fun m => WriteString m true) (firstn k msgs)
        ++ [WriteString (nth k msgs "") false]
    else
      k = length msgs /\
      fst (WriteLinesFrom write_ok n msgs) = map (fun m => WriteString m true) msgs.
Proof. apply WriteLinesFrom_spec. Qed.

Lemma registry_events_app (a b : list session_event) :
  registry_events (a ++ b) = registry_events a ++ registry_events b.
Proof.
  induction a as [| e a IH]; simpl; [reflexivity |].
  destruct e; simpl; now rewrite IH.
Qed.

Lemma WriteLinesFrom_only_writes (write_ok : nat -> bool) (n : nat) (msgs : list string) :
  Forall (fun e => exists s ok, e = WriteString s ok)
         (fst (WriteLinesFrom write_ok n msgs)).
Proof.
  revert n. induction msgs as [| msg msgs IH]; intros n; simpl; [constructor |].
  destruct (write_ok n).
  - specialize (IH (S n)). destruct (WriteLinesFrom write_ok (S n) msgs) as [evs f].
    simpl in *. constructor; [now exists msg, true | exact IH].
  - constructor; [now exists msg, false | constructor].
Qed.

Lemma only_writes_registry (evs : list session_event) :
  Forall (fun e => exists s ok, e = WriteString s ok) evs ->
  registry_events evs = [] /\ ~ In CloseConn evs.
Proof.
  induction 1 as [| e evs (s & ok & ->) _ [IH1 IH2]]; simpl; [tauto |].
  split; [exact IH1 |]. intros [H | H]; [discriminate | tauto].
Qed.

Lemma session_registry_events (write_ok : nat -> bool) (c : conn) (ch : chan)
    (msgs : list string) (closed : bool) :
  registry_events (handleConnection write_ok c ch msgs closed) =
    FromAddchan {| client_conn := c; client_ch := ch |}
    :: (if closed || existsb (fun i => negb (write_ok i)) (seq 2 (length msgs))
        then [FromRmchan {| client_conn := c; client_ch := ch |}] else []).
Proof.
  unfold handleConnection.
  pose proof (WriteLinesFrom_failed write_ok 2 msgs) as Hf.
  pose proof (only_writes_registry _ (WriteLinesFrom_only_writes write_ok 2 msgs))
    as [Hreg _].
  destruct (WriteLinesFrom write_ok 2 msgs) as [evs failed]. cbn [fst snd] in *.
  rewrite <- Hf, (orb_comm closed failed).
  cbn [app registry_events]. rewrite registry_events_app, Hreg.
  destruct (failed || closed); reflexivity.
Qed.

(** X18. A session always starts with the two handshake writes and the
    registration, whether or not the handshake writes succeed.  It ends
    exactly when a sentence write fails or the channel is closed; it then
    deregisters the same client once and closes the connection after that,
    as its last two events.  Until then it neither deregisters nor closes. *)
Theorem session_lifecycle (write_ok : nat -> bool) (c : conn) (ch : chan)
    (msgs : list string) (closed : bool) :
  let client := {| client_conn := c; client_ch := ch |} in
  let trace := handleConnection write_ok c ch msgs closed in
  let ended :=
    closed || existsb (fun i => negb (write_ok i)) (seq 2 (length msgs)) in
  firstn 3 trace =
    [WriteString "PASS?" (write_ok 0%nat); WriteString "AOK" (write_ok 1%nat);
     ToAddchan client] /\
  registry_events trace =
    FromAddchan client :: (if ended then [FromRmchan client] else []) /\
  (if ended then
     exists body, trace = body ++ [ToRmchan client; CloseConn] /\ ~ In CloseConn body
   else ~ In CloseConn trace).
Proof.
  cbv zeta. unfold handleConnection.
  pose proof (WriteLinesFrom_failed write_ok 2 msgs) as Hf.
  pose proof (only_writes_registry _ (WriteLinesFrom_only_writes write_ok 2 msgs))
    as [Hreg Hnc].
  destruct (WriteLinesFrom write_ok 2 msgs) as [evs failed]. cbn [fst snd] in *.
  rewrite <- Hf, (orb_comm closed failed).
  split; [reflexivity |]. split.
  - cbn [app registry_events]. rewrite registry_events_app, Hreg.
    destruct (failed || closed); reflexivity.
  - destruct (failed || closed).
    + exists ([WriteString "PASS?" (write_ok 0%nat);
               WriteString "AOK" (write_ok 1%nat);
               ToAddchan {| client_conn := c; client_ch := ch |}] ++ evs).
      split; [now rewrite <- app_assoc |].
      simpl. intros [H | [H | [H | H]]]; try discriminate. now apply Hnc.
    + rewrite app_nil_r. simpl.
      intros [H | [H | [H | H]]]; try discriminate. now apply Hnc.
Qed.

Lemma received_text_app (a b : list session_event) :
  received_text (a ++ b) = received_text a +:+ received_text b.
Proof.
  induction a as [| e a IH]; simpl; [reflexivity |].
  destruct e as [s [|] | | |]; simpl; rewrite IH; try reflexivity.
  now rewrite append_assoc.
Qed.

Lemma received_text_written (msgs : list string) :
  received_text (map (fun m => WriteString m true) msgs) = concat_text msgs.
Proof. induction msgs as [| m msgs IH]; simpl; [reflexivity | now rewrite IH]. Qed.

(** X19. What a client reads on its connection is the handshake text, as
    far as its writes succeeded, followed by the sentences of the channel in
    their order, without gap or repetition, up to the first write that
    fails.  With no failing write it reads PASS?AOK and then every
    sentence. *)
Theorem client_reads_a_prefix (write_ok : nat -> bool) (c : conn) (ch : chan)
    (msgs : list string) (closed : bool) :
  (exists k : nat,
     (k <= length msgs)%nat /\
     (forall i, (i < k)%nat -> write_ok (2 + i)%nat = true) /\
     (k < length msgs -> write_ok (2 + k)%nat = false)%nat /\
     received_text (handleConnection write_ok c ch msgs closed) =
       (if write_ok 0%nat then "PASS?" else "") +:+
       (if write_ok 1%nat then "AOK" else "") +:+ concat_text (firstn k msgs)) /\
  ((forall i, write_ok i = true) ->
   received_text (handleConnection write_ok c ch msgs closed) =
     "PASS?AOK" +:+ concat_text msgs).
Proof.
  assert (Hmain : exists k : nat,
     (k <= length msgs)%nat /\
     (forall i, (i < k)%nat -> write_ok (2 + i)%nat = true) /\
     (k < length msgs -> write_ok (2 + k)%nat = false)%nat /\
     received_text (handleConnection write_ok c ch msgs closed) =
       (if write_ok 0%nat then "PASS?" else "") +:+
       (if write_ok 1%nat then "AOK" else "") +:+ concat_text (firstn k msgs)).
  { destruct (WriteLinesFrom_spec write_ok 2 msgs)
      as (k & Hk & Hok & Hrest).
    unfold handleConnection.
    destruct (WriteLinesFrom write_ok 2 msgs) as [evs failed]. cbn [fst snd] in *.
    exists k. split; [exact Hk |]. split; [exact Hok |].
    assert (Hevs : received_text evs = concat_text (firstn k msgs)).
    { destruct failed.
      - destruct Hrest as (_ & _ & ->).
        rewrite received_text_app, received_text_written. simpl.
        apply append_nil_r.
      - destruct Hrest as (-> & ->).
        now rewrite received_text_written, firstn_all. }
    split.
    - destruct failed; [tauto | lia].
    - rewrite !received_text_app, Hevs.
      assert (Htail : received_text
                (if failed || closed
                 then [ToRmchan {| client_conn := c; client_ch := ch |}; CloseConn]
                 else []) = "") by (destruct (failed || closed); reflexivity).
      rewrite Htail, append_nil_r.
      destruct (write_ok 0%nat), (write_ok 1%nat); reflexivity. }
  split; [exact Hmain |].
  intros Hall. destruct Hmain as (k & Hk & _ & Hfail & ->).
  assert (k = length msgs) as ->.
  { destruct (Nat.eq_dec k (length msgs)) as [E | E]; [exact E |].
    assert (Hlt : (k < length msgs)%nat) by lia.
    specialize (Hfail Hlt). rewrite Hall in Hfail. discriminate. }
  rewrite firstn_all, !Hall. reflexivity.
Qed.

(** X20. Fed to the registry, a session that has ended leaves no entry
    behind: if the connection was not registered before, the map is as
    before; a session that has not ended is the one entry added. *)
Theorem ended_session_leaves_registry_unchanged
    (clients : gmap conn chan) (write_ok : nat -> bool) (c : conn) (ch : chan)
    (msgs : list string) (closed : bool) :
  clients !! c = None ->
  let ended :=
    closed || existsb (fun i => negb (write_ok i)) (seq 2 (length msgs)) in
  handleMessages_from clients
    (registry_events (handleConnection write_ok c ch msgs closed)) =
  (if ended then clients else <[c := ch]> clients, []).
Proof.
  intros Hfresh. cbv zeta.
  rewrite session_registry_events.
  destruct (closed || _); simpl; [| reflexivity].
  f_equal. now apply delete_insert_id.
Qed.

Lemma ended_session_leaves_registry_unchanged_witness :
  (∅ : gmap conn chan) !! 7%positive = None /\
  handleMessages_from ∅
    (registry_events
       (handleConnection (fun i => Nat.ltb i 3) 7%positive 70%positive
          ["$a"; "$b"; "$c"] false)) = (∅, []).
Proof.
  split; [reflexivity |].
  apply (ended_session_leaves_registry_unchanged ∅ (fun i => Nat.ltb i 3)
           7%positive 70%positive ["$a"; "$b"; "$c"] false).
  reflexivity.
Defined.

(** ** Offsets within the 16-bit range (lines 137-141) *)

(** X21. Under the full-fix regime, offsets whose integer parts fit 16 bits
    are written as they are, the fraction cut off: relative north and east
    are the integer parts of the north and east offsets of [distRect]. *)
Theorem full_fix_offsets_in_range (cvt : spec_float -> Z)
    (distRect : float64 -> float64 -> float64 -> float64 ->
                float64 * float64 * float64 * float64)
    (w : World) (ti : TrafficInfo) (c : classification)
    (d b dn de : float64) (zn ze : Z) :
  distRect (F64.of_f32 (GPSLatitude (mySituation w)))
           (F64.of_f32 (GPSLongitude (mySituation w)))
           (F64.of_f32 (Lat ti)) (F64.of_f32 (Lng ti)) = (d, b, dn, de) ->
  select_regime w ti = Some FullFix ->
  classify cvt distRect w ti = Some c ->
  Float.trunc dn = Some zn -> in_int16 zn = true ->
  Float.trunc de = Some ze -> in_int16 ze = true ->
  relativeNorth c = zn /\ rEast c = fmt_d ze /\ track c = fmt_d (Track ti).
Proof.
  intros Hr Hs Hc Hn Hin He Hie.
  destruct (full_fix_offsets _ _ _ _ _ _ _ _ _ Hr Hs Hc) as (H1 & H2 & H3 & _).
  assert (H32 : forall z, in_int16 z = true -> in_int32 z = true).
  { intros z Hz. unfold in_int16, in_int32 in *.
    apply andb_prop in Hz as [A B]. apply Z.leb_le in A, B.
    apply andb_true_intro. split; apply Z.leb_le; lia. }
  unfold int16 in H1, H2.
  rewrite (int16_of_float_in_int32 _ _ _ Hn (H32 _ Hin)),
    (wrap_int16_in_range _ Hin) in H1.
  rewrite (int16_of_float_in_int32 _ _ _ He (H32 _ Hie)),
    (wrap_int16_in_range _ Hie) in H2.
  auto.
Qed.

Lemma full_fix_offsets_in_range_witness :
  exists c,
    classify Sample.cvt (Sample.rect 3000 90 100 (-2999)) Sample.world Sample.target
      = Some c /\
    relativeNorth c = 100 /\ rEast c = "-2999" /\ track c = "136".
Proof.
  eexists. split; [vm_compute; reflexivity |].
  apply (full_fix_offsets_in_range Sample.cvt (Sample.rect 3000 90 100 (-2999))
           Sample.world Sample.target _
           (F64.of_Z 3000) (F64.of_Z 90) (F64.of_Z 100) (F64.of_Z (-2999)) 100 (-2999));
    vm_compute; reflexivity.
Defined.

(** ** The date field (lines 393-394, 406-408) *)

Lemma fmt_0d_two_digits (z : Z) :
  0 <= z < 100 ->
  fmt_0d 2 z = String (digit_char (Z.to_N z / 10)) (String (digit_char (Z.to_N z mod 10)) "").
Proof.
  intros Hz.
  assert (Hall : forallb (fun n =>
            String.eqb (fmt_0d 2 (Z.of_nat n))
              (String (digit_char (Z.to_N (Z.of_nat n) / 10))
                 (String (digit_char (Z.to_N (Z.of_nat n) mod 10)) "")))
            (seq 0 100) = true) by (vm_compute; reflexivity).
  rewrite forallb_forall in Hall.
  specialize (Hall (Z.to_nat z)).
  rewrite Z2Nat.id in Hall by lia.
  apply String.eqb_eq, Hall, in_seq. lia.
Qed.

(** X22. For a calendar date of a year from 0 on, the date field has six
    digits, and read back as a number it is day, month and the year within
    its century: dd * 10000 + mm * 100 + yy. *)
Theorem date_field_round_trip (w : World) (year month day : Z) :
  utcDate w = (year, month, day) ->
  0 <= year -> 1 <= month <= 12 -> 1 <= day <= 31 ->
  String.length (gprmc_date w) = 6%nat /\
  Z.of_N (value_of 10 (gprmc_date w) 0) = day * 10000 + month * 100 + year mod 100.
Proof.
  intros Hd Hy Hm Hday. unfold gprmc_date. rewrite Hd.
  assert (Hyy : 0 <= Z.rem year 100 < 100).
  { rewrite Z.rem_mod_nonneg by lia. apply Z.mod_pos_bound. lia. }
  rewrite (fmt_0d_two_digits day), (fmt_0d_two_digits month),
    (fmt_0d_two_digits (Z.rem year 100)) by lia.
  split; [reflexivity |].
  cbn [String.append value_of].
  assert (Hdig : forall n : N, (n < 100)%N ->
            digit_value (digit_char (n / 10)) = (n / 10)%N /\
            digit_value (digit_char (n mod 10)) = (n mod 10)%N).
  { intros n Hn. split; apply digit_value_char.
    - assert (n / 10 < 10)%N by (apply N.Div0.div_lt_upper_bound; lia). lia.
    - pose proof (N.mod_upper_bound n 10). lia. }
  destruct (Hdig (Z.to_N day)) as [-> ->]; [lia |].
  destruct (Hdig (Z.to_N month)) as [-> ->]; [lia |].
  destruct (Hdig (Z.to_N (Z.rem year 100))) as [-> ->]; [lia |].
  rewrite Z.rem_mod_nonneg in * by lia.
  pose proof (N.div_mod (Z.to_N day) 10).
  pose proof (N.div_mod (Z.to_N month) 10).
  pose proof (N.div_mod (Z.to_N (year mod 100)) 10).
  lia.
Qed.

Lemma date_field_round_trip_witness :
  utcDate Sample.world = (2018, 3, 23) /\
  String.length (gprmc_date Sample.world) = 6%nat /\
  Z.of_N (value_of 10 (gprmc_date Sample.world) 0) = 23 * 10000 + 3 * 100 + 2018 mod 100.
Proof.
  split; [reflexivity |].
  apply (date_field_round_trip Sample.world 2018 3 23); [reflexivity | lia | lia | lia].
Defined.

(** ** The PFLAU stage over all inputs (lines 121-317) *)

Section PflauStage.
Variable cvt_indefinite : spec_float -> Z.
Variable distRect : float64 -> float64 -> float64 -> float64 ->
                    float64 * float64 * float64 * float64.

Lemma valid_conditions (w : World) (ti : TrafficInfo) :
  snd (fst (makeFlarmPFLAAString cvt_indefinite distRect w ti)) = true <->
  0 < Alt ti /\ have_fix w = true /\
  ((Position_valid ti = true /\ Speed_valid ti = true) \/
   (Position_valid ti = false /\ Speed_valid ti = false /\ Track ti <= 0 /\
    signal_range (SignalLevel ti) <> 0 /\
    InBetween (relative_vertical cvt_indefinite w ti) (-310) 310 = true)).
Proof.
  unfold makeFlarmPFLAAString, classify, have_fix.
  destruct (distRect _ _ _ _) as [[[d b] dn] de].
  rewrite andb_true_iff, Z.ltb_lt.
  destruct (select_regime w ti) as [[|]|] eqn:E.
  - apply select_regime_full_fix in E as (Ha & Hp & Hs & Hg & Hq).
    simpl. destruct (alarm_bands _ _). simpl. tauto.
  - apply select_regime_signal in E as (Ha & Hp & Hs & Ht & Hg & Hq).
    destruct (Z.eqb_spec (signal_range (SignalLevel ti)) 0) as [Hz | Hz].
    + simpl. split; [discriminate |].
      intros (_ & _ & [[Hp' _] | (_ & _ & _ & Hn & _)]); congruence.
    + cbn [andb]. destruct (InBetween _ _ _) eqn:Hb; cbn [negb].
      * destruct (alarm_bands _ _). simpl. tauto.
      * simpl. split; [discriminate |].
        intros (_ & _ & [[Hp' _] | (_ & _ & _ & _ & Hn)]); congruence.
  - simpl. split; [discriminate |].
    intros (Ha & [Hg Hq] & [[Hp Hs] | (Hp & Hs & Ht & _)]); exfalso.
    + assert (select_regime w ti = Some FullFix)
        by (apply select_regime_full_fix; tauto). congruence.
    + assert (select_regime w ti = Some SignalStrength)
        by (apply select_regime_signal; tauto). congruence.
Qed.

(** C4 (amended). A PFLAU is sent for the targets that pass classification
    and for no other.  A target passes ([valid = true]) exactly when its
    altitude is positive, the ownship has a valid fix of nonzero quality and
    one of the two regimes accepts it.  For such a target the PFLAU with the
    alarm fields filled is sent exactly when the alarm level is above 0, the
    fix is valid with nonzero quality and the target is not in the
    signal-strength mode; otherwise the fixed blank PFLAU is sent.  For a
    rejected target ([valid = false]) nothing at all is sent, whether or not
    the fix is valid; without a valid fix of nonzero quality every target is
    rejected, so that neither [sendMsg] nor the channel receives a message,
    not even the empty string. *)
Theorem pflau_emission_by_validity (w : World) (ti : TrafficInfo) :
  let r := makeFlarmPFLAAString cvt_indefinite distRect w ti in
  (snd (fst r) = true <->
     0 < Alt ti /\ have_fix w = true /\
     ((Position_valid ti = true /\ Speed_valid ti = true) \/
      (Position_valid ti = false /\ Speed_valid ti = false /\ Track ti <= 0 /\
       signal_range (SignalLevel ti) <> 0 /\
       InBetween (relative_vertical cvt_indefinite w ti) (-310) 310 = true))) /\
  (snd (fst r) = false -> snd r = []) /\
  (have_fix w = false -> snd (fst r) = false /\ snd r = []) /\
  (snd (fst r) = true ->
     exists c,
       classify cvt_indefinite distRect w ti = Some c /\
       (alarmLevel c, alarmType c) = alarm_bands (dist c) (relativeVertical c) /\
       (modec_valid c = true <-> select_regime w ti = Some SignalStrength) /\
       (snd r = sendNetFLARM w (populated_PFLAU cvt_indefinite ti c) <->
          0 < alarmLevel c /\ have_fix w = true /\ modec_valid c = false) /\
       (~ (0 < alarmLevel c /\ have_fix w = true /\ modec_valid c = false) ->
          snd r = sendNetFLARM w blank_PFLAU)).
Proof.
  cbv zeta. split; [apply valid_conditions |].
  assert (Hrej : snd (fst (makeFlarmPFLAAString cvt_indefinite distRect w ti)) = false ->
                 snd (makeFlarmPFLAAString cvt_indefinite distRect w ti) = []).
  { unfold makeFlarmPFLAAString.
    destruct (classify cvt_indefinite distRect w ti); [discriminate | reflexivity]. }
  split; [exact Hrej |]. split.
  - intros Hf.
    rewrite (select_regime_none_rejects cvt_indefinite distRect _ _
               (have_fix_false_rejects _ ti Hf)).
    split; reflexivity.
  - intros Hv.
    destruct (classify cvt_indefinite distRect w ti) as [c |] eqn:Hc.
    + exists c. split; [reflexivity |].
      split; [exact (classify_alarm _ _ _ _ _ Hc) |].
      pose proof (classify_have_fix _ _ _ _ _ Hc) as Hf.
      destruct (proj2 (pflau_after_classification cvt_indefinite distRect w ti) c Hc)
        as [Hiff Hblank].
      split; [| split; [exact Hiff | intros Hn; exact (Hblank Hf Hn)]].
      destruct (classify_regime _ _ _ _ _ Hc) as [[Hr Hm] | [Hr Hm]]; rewrite Hr, Hm.
      * split; discriminate.
      * split; reflexivity.
    + unfold makeFlarmPFLAAString in Hv. rewrite Hc in Hv. discriminate.
Qed.

End PflauStage.

(** C4, counterexample: the fix is valid with quality 1, the target has no
    altitude and so no alarm; nothing is sent, where the claim has the blank
    PFLAU sent. *)
Lemma valid_fix_rejected_target_is_silent :
  have_fix Sample.world = true /\
  makeFlarmPFLAAString Sample.cvt (Sample.rect 3000 90 100 3000)
    Sample.world Sample.target_no_alt = (("", false), []) /\
  snd (makeFlarmPFLAAString Sample.cvt (Sample.rect 3000 90 100 3000)
         Sample.world Sample.target_no_alt)
    <> sendNetFLARM Sample.world blank_PFLAU.
Proof. vm_compute. repeat split; try reflexivity. discriminate. Qed.

(** C4 (amended) at a target under an alarm of level 3: the filled PFLAU is
    sent. *)
Lemma pflau_emission_by_validity_witness :
  snd (fst (makeFlarmPFLAAString Sample.cvt (Sample.rect 3000 90 100 3000)
              Sample.world Sample.target)) = true /\
  exists c,
    classify Sample.cvt (Sample.rect 3000 90 100 3000) Sample.world Sample.target
      = Some c /\
    snd (makeFlarmPFLAAString Sample.cvt (Sample.rect 3000 90 100 3000)
           Sample.world Sample.target)
      = sendNetFLARM Sample.world (populated_PFLAU Sample.cvt Sample.target c).
Proof.
  assert (Hv : snd (fst (makeFlarmPFLAAString Sample.cvt (Sample.rect 3000 90 100 3000)
                           Sample.world Sample.target)) = true)
    by (vm_compute; reflexivity).
  split; [exact Hv |].
  destruct (proj2 (proj2 (proj2
              (pflau_emission_by_validity Sample.cvt (Sample.rect 3000 90 100 3000)
                 Sample.world Sample.target))) Hv)
    as (c & Hc & _ & _ & Hiff & _).
  exists c. split; [exact Hc |].
  apply Hiff.
  vm_compute in Hc. injection Hc as <-.
  vm_compute. repeat split; reflexivity.
Defined.
